(** * jquery.tappable.js: a shallow embedding and its verified properties

    The plugin [$.fn.tappable] (src/jquery.tappable.js) reads an [options]
    value, registers a handful of jQuery event listeners and toggles two
    marker classes, ['touch-started'] and ['touched'], on the elements the
    listeners run for.  The development below embeds

    - the JavaScript values the plugin inspects ([typeof], truthiness,
      property reads),
    - the option parsing (the [switch (typeof options)] of lines 77-101),
    - the listeners and their bodies (lines 103-158) in a small state and
      error monad over a page state (class attributes, pending timeouts,
      the log of callback invocations, prevented events, uncaught errors),
    - the event loop that delivers events and fires timeouts,

    and proves the behavioural properties of a binding. *)

From Stdlib Require Import ZArith.
From stdpp Require Import base strings list gmap.

Set Warnings "-register-all,-clear-no-such-hyp".
Open Scope string_scope.
Open Scope list_scope.

(** ** JavaScript values *)

(** DOM elements, user functions and events are identified by numbers. *)
Definition Element := nat.
Definition FunId := nat.

(** An event object: its identity, its [type] and its [target]. *)
Record Event := mkEvent {
  ev_id : nat;
  ev_type : string;
  ev_target : Element
}.

(** Functions: the plugin's own default [function () { return true }]
    (lines 70-72), or a function supplied by the page. *)
Inductive Fn :=
| AlwaysTrue
| UserFn (f : FunId).

(** Numbers are kept to the integers; [VElem], [VEvent] and [VWindow] are
    the host objects handed to user functions. *)
Inductive JsValue :=
| VUndefined
| VNull
| VBool (b : bool)
| VNum (n : Z)
| VStr (s : string)
| VFun (f : Fn)
| VObj (props : list (string * JsValue))
| VElem (e : Element)
| VEvent (ev : Event)
| VWindow.

(** [typeof v] *)
Definition typeof (v : JsValue) : string :=
  match v with
  | VUndefined => "undefined"
  | VNull => "object"
  | VBool _ => "boolean"
  | VNum _ => "number"
  | VStr _ => "string"
  | VFun _ => "function"
  | VObj _ | VElem _ | VEvent _ | VWindow => "object"
  end.

(** ToBoolean, as used by [if (v)] and [a && b]. *)
Definition truthy (v : JsValue) : bool :=
  match v with
  | VUndefined | VNull => false
  | VBool b => b
  | VNum n => negb (Z.eqb n 0)
  | VStr s => negb (String.eqb s "")
  | VFun _ | VObj _ | VElem _ | VEvent _ | VWindow => true
  end.

(** Abrupt completions. *)
Inductive Exn :=
| TypeError
| UserExn (v : JsValue)
| SelectorError (sel : JsValue).

Inductive Completion (A : Type) :=
| Normal (a : A)
| Throw (e : Exn).
Arguments Normal {A} a.
Arguments Throw {A} e.

#[export] Instance completion_ret : MRet Completion := fun _ a => Normal a.
#[export] Instance completion_bind : MBind Completion := fun _ _ k c =>
  match c with
  | Normal a => k a
  | Throw e => Throw e
  end.

(** Property table of an object literal: the first entry with the name. *)
Fixpoint lookup_prop (name : string) (props : list (string * JsValue)) : JsValue :=
  match props with
  | [] => VUndefined
  | (k, v) :: rest => if String.eqb k name then v else lookup_prop name rest
  end.

(** [o.name]: reading a property of [null] or [undefined] is a TypeError;
    other values without the property give [undefined]. *)
Definition get_prop (o : JsValue) (name : string) : Completion JsValue :=
  match o with
  | VUndefined | VNull => Throw TypeError
  | VObj props => Normal (lookup_prop name props)
  | _ => Normal VUndefined
  end.

(** ** Option parsing (lines 69-101) *)

(** The variables captured by the listeners' closures. *)
Record Config := mkConfig {
  callback : JsValue;
  cancelOnMove : JsValue;
  onlyIf : JsValue;
  touchDelay : JsValue;
  selector : JsValue
}.

(** The same closure variables with another [callback]. *)
Definition set_callback (cb : JsValue) (cfg : Config) : Config :=
  {| callback := cb; cancelOnMove := cancelOnMove cfg; onlyIf := onlyIf cfg;
     touchDelay := touchDelay cfg; selector := selector cfg |}.

(** Lines 69-75: the initial values of the five variables. *)
Definition defaults : Config :=
  {| callback := VUndefined;
     cancelOnMove := VBool true;
     onlyIf := VFun AlwaysTrue;
     touchDelay := VNum 0;
     selector := VUndefined |}.

(** [if (typeof options.name != 'undefined') { x = options.name }] *)
Definition override (options : JsValue) (name : string) (x : JsValue)
  : Completion JsValue :=
  v ← get_prop options name;
  if String.eqb (typeof v) "undefined" then mret x else mret v.

(** The [switch (typeof options)] of lines 77-101.  There is no [default]
    case: any other [typeof] leaves the five variables as they are. *)
Definition configure (options : JsValue) : Completion Config :=
  if String.eqb (typeof options) "function" then
    mret {| callback := options;
            cancelOnMove := cancelOnMove defaults;
            onlyIf := onlyIf defaults;
            touchDelay := touchDelay defaults;
            selector := selector defaults |}
  else if String.eqb (typeof options) "object" then
    cb ← get_prop options "callback";
    com ← override options "cancelOnMove" (cancelOnMove defaults);
    oi ← override options "onlyIf" (onlyIf defaults);
    td ← override options "touchDelay" (touchDelay defaults);
    sel ← override options "selector" (selector defaults);
    mret {| callback := cb; cancelOnMove := com; onlyIf := oi;
            touchDelay := td; selector := sel |}
  else mret defaults.

(** ** Listeners (lines 109-158) *)

(** The five function expressions handed to [.on]. *)
Inductive Handler :=
| TouchStartHandler
| TouchEndHandler
| PreventClickHandler
| TouchMoveHandler
| FallbackClickHandler.

(** One [this.on(type, selector, handler)]: the collection it was called
    on, its arguments and the variables the handler closes over. *)
Record Listener := mkListener {
  l_scope : list Element;
  l_type : string;
  l_selector : JsValue;
  l_handler : Handler;
  l_env : Config
}.

Definition on (this : list Element) (type : string) (cfg : Config)
    (h : Handler) : Listener :=
  {| l_scope := this; l_type := type; l_selector := selector cfg;
     l_handler := h; l_env := cfg |}.

(** Lines 109-158: which listeners a call registers, in order. *)
Definition listeners (touchSupported : bool) (this : list Element)
    (cfg : Config) : list Listener :=
  if touchSupported then
    [ on this "touchstart" cfg TouchStartHandler;
      on this "touchend" cfg TouchEndHandler;
      on this "click" cfg PreventClickHandler ]
    ++ (if truthy (cancelOnMove cfg)
        then [ on this "touchmove" cfg TouchMoveHandler ]
        else [])
  else if String.eqb (typeof (callback cfg)) "function" then
    [ on this "click" cfg FallbackClickHandler ]
  else [].

(** jQuery's verdict on a selector when a listener is attached.  In
    [.on(type, selector, fn)] only a non-empty string counts as a
    selector (any other value is taken for event data); jQuery's
    [event.add] runs once per element of the collection and, from jQuery
    3.0 on, has its selector engine parse the string first, which throws
    on one it cannot parse.  [selector_ok] is that engine's answer; for
    the older versions it accepts every string. *)
Definition attachable (selector_ok : string → bool) (this : list Element)
    (sel : JsValue) : bool :=
  match this, sel with
  | _ :: _, VStr s => String.eqb s "" || selector_ok s
  | _, _ => true
  end.

(** One executed [this.on(type, selector, handler)]. *)
Definition jq_on (selector_ok : string → bool) (l : Listener)
    (registry : list Listener) : Completion (list Listener) :=
  if attachable selector_ok (l_scope l) (l_selector l)
  then Normal (registry ++ [l])
  else Throw (SelectorError (l_selector l)).

(** The [.on] calls of lines 109-158, one after the other: the first that
    throws ends the function. *)
Fixpoint register (selector_ok : string → bool) (ls : list Listener)
    (registry : list Listener) : Completion (list Listener) :=
  match ls with
  | [] => Normal registry
  | l :: rest =>
    registry' ← jq_on selector_ok l registry;
    register selector_ok rest registry'
  end.

(** [$.fn.tappable]: parse the options, register the listeners on top of
    those already there, return [this] (line 160). *)
Definition tappable (selector_ok : string → bool) (touchSupported : bool)
    (this : list Element) (options : JsValue) (registry : list Listener)
  : Completion (list Element * list Listener) :=
  cfg ← configure options;
  registry' ←
    register selector_ok (listeners touchSupported this cfg) registry;
  mret (this, registry').

(** A pending [window.setTimeout]: its handle, the element [$that] the
    deferred function closes over, and the delay it was given. *)
Record Timer := mkTimer {
  t_id : nat;
  t_elem : Element;
  t_delay : JsValue
}.

(** One execution of [callback.call(thisArg, arg)]. *)
Record Call := mkCall {
  c_fn : JsValue;
  c_this : JsValue;
  c_args : list JsValue
}.

(** Removes the first timer with the handle from the pending ones. *)
Fixpoint take_timer (id : nat) (ts : list Timer) : option (Timer * list Timer) :=
  match ts with
  | [] => None
  | t :: rest =>
    if Nat.eqb (t_id t) id then Some (t, rest)
    else match take_timer id rest with
         | Some (t', rest') => Some (t', t :: rest')
         | None => None
         end
  end.

(** ** The page: state, user code, handler bodies, event loop *)

Section Page.

(** Whatever page state user functions depend on besides the class
    attributes; it changes between events as the page pleases. *)
Variable World : Type.

(** The page state the plugin reads and writes. *)
Record Page := mkPage {
  classes : gmap Element (gset string);   (* class attribute per element *)
  timers : list Timer;                     (* pending timeouts, oldest first *)
  next_timer : nat;                        (* next setTimeout handle *)
  world : World;
  calls : list Call;                       (* callback invocations, oldest first *)
  prevented : list nat;                    (* events with preventDefault() called *)
  uncaught : list Exn                      (* errors that escaped a handler *)
}.

(** The functions the page supplies ([callback], [onlyIf]): called with
    a receiver and arguments, they read the page and return or throw.
    They do not write the two marker classes themselves. *)
Variable user_fn :
  FunId → World → gmap Element (gset string) → JsValue → list JsValue →
  Completion JsValue.

(** Handler code: state passing with abrupt completion. *)
Definition Js (A : Type) : Type := Page → Completion A * Page.

Definition js_ret {A : Type} (a : A) : Js A := fun p => (Normal a, p).

(** Sequencing: a thrown exception skips the rest, the state changes
    made before it stay. *)
Definition js_bind {A B : Type} (m : Js A) (k : A → Js B) : Js B :=
  fun p =>
    match m p with
    | (Normal a, p') => k a p'
    | (Throw e, p') => (Throw e, p')
    end.

Notation "x <~ m ; k" := (js_bind m (fun x => k))
  (at level 20, m at level 100, k at level 200, only parsing).

Definition set_classes (cs : gmap Element (gset string)) (p : Page) : Page :=
  {| classes := cs; timers := timers p; next_timer := next_timer p;
     world := world p; calls := calls p; prevented := prevented p;
     uncaught := uncaught p |}.

(** [$(el).hasClass(c)] *)
Definition has_class (c : string) (el : Element) (p : Page) : bool :=
  bool_decide (c ∈ classes p !!! el).

Definition hasClass (el : Element) (c : string) : Js bool :=
  fun p => (Normal (has_class c el p), p).

(** [$(el).addClass(c)] *)
Definition with_class (el : Element) (c : string) (p : Page) : Page :=
  set_classes (<[el := {[c]} ∪ classes p !!! el]> (classes p)) p.

Definition addClass (el : Element) (c : string) : Js unit :=
  fun p => (Normal (), with_class el c p).

(** [$(el).removeClass(c)] *)
Definition without_class (el : Element) (c : string) (p : Page) : Page :=
  set_classes (<[el := classes p !!! el ∖ {[c]}]> (classes p)) p.

Definition removeClass (el : Element) (c : string) : Js unit :=
  fun p => (Normal (), without_class el c p).

(** [window.setTimeout(function () { ... $that ... }, delay)] *)
Definition setTimeout (el : Element) (delay : JsValue) : Js nat :=
  fun p =>
    (Normal (next_timer p),
     {| classes := classes p;
        timers := timers p ++ [mkTimer (next_timer p) el delay];
        next_timer := S (next_timer p);
        world := world p; calls := calls p; prevented := prevented p;
        uncaught := uncaught p |}).

(** [event.preventDefault()] *)
Definition preventDefault (event : Event) : Js unit :=
  fun p =>
    (Normal (),
     {| classes := classes p; timers := timers p; next_timer := next_timer p;
        world := world p; calls := calls p;
        prevented := prevented p ++ [ev_id event];
        uncaught := uncaught p |}).

(** [f.call(this, args...)] for any value [f]: calling a non-function
    is a TypeError. *)
Definition apply_fn (f this : JsValue) (args : list JsValue) : Js JsValue :=
  fun p =>
    match f with
    | VFun AlwaysTrue => (Normal (VBool true), p)
    | VFun (UserFn id) => (user_fn id (world p) (classes p) this args, p)
    | _ => (Throw TypeError, p)
    end.

Definition log_call (c : Call) (p : Page) : Page :=
  {| classes := classes p; timers := timers p; next_timer := next_timer p;
     world := world p; calls := calls p ++ [c];
     prevented := prevented p; uncaught := uncaught p |}.

(** [callback.call(el, event)]: the call is entered in the log when the
    callee is a function, then runs. *)
Definition callback_call (cfg : Config) (el : Element) (event : Event)
  : Js JsValue :=
  fun p =>
    match callback cfg with
    | VFun _ =>
      apply_fn (callback cfg) (VElem el) [VEvent event]
        (log_call (mkCall (callback cfg) (VElem el) [VEvent event]) p)
    | _ => (Throw TypeError, p)
    end.

(** Lines 103-107. *)
Definition fireCallback (cfg : Config) (el : Element) (event : Event)
  : Js unit :=
  if String.eqb (typeof (callback cfg)) "function" then
    r <~ apply_fn (onlyIf cfg) VWindow [VElem el];
    if truthy r then _ <~ callback_call cfg el event; js_ret ()
    else js_ret ()
  else js_ret ().

(** Lines 116-120: the function given to [setTimeout]. *)
Definition deferred (el : Element) : Js unit :=
  b <~ hasClass el "touch-started";
  if b then addClass el "touched" else js_ret ().

(** The bodies of the five listeners, with [this] and [event]. *)
Definition handle (h : Handler) (cfg : Config) (this : Element)
    (event : Event) : Js JsValue :=
  match h with
  | TouchStartHandler =>                           (* lines 110-124 *)
    r <~ apply_fn (onlyIf cfg) VWindow [VElem this];
    if truthy r then
      _ <~ addClass this "touch-started";
      _ <~ setTimeout this (touchDelay cfg);
      js_ret (VBool true)
    else js_ret (VBool true)
  | TouchEndHandler =>                             (* lines 126-139 *)
    b <~ hasClass this "touch-started";
    if b then
      _ <~ removeClass this "touched";
      _ <~ removeClass this "touch-started";
      _ <~ fireCallback cfg this event;
      js_ret (VBool true)
    else js_ret (VBool true)
  | PreventClickHandler =>                         (* lines 141-143 *)
    _ <~ preventDefault event;
    js_ret VUndefined
  | TouchMoveHandler =>                            (* lines 146-150 *)
    _ <~ removeClass this "touched";
    _ <~ removeClass this "touch-started";
    js_ret VUndefined
  | FallbackClickHandler =>                        (* lines 153-157 *)
    r <~ apply_fn (onlyIf cfg) VWindow [VElem this];
    if truthy r then _ <~ callback_call cfg this event; js_ret VUndefined
    else js_ret VUndefined
  end.

Definition report (e : Exn) (p : Page) : Page :=
  {| classes := classes p; timers := timers p; next_timer := next_timer p;
     world := world p; calls := calls p; prevented := prevented p;
     uncaught := uncaught p ++ [e] |}.

(** jQuery's dispatch of one event for one element [this]: the listeners
    of the event's type run in registration order; an exception leaves
    the dispatch and is reported by the browser.  Which elements an event
    is delivered for (the bound ones, or the descendants matching the
    selector) is jQuery's decision, made before this point. *)
Fixpoint deliver (reg : list Listener) (event : Event) (this : Element)
    (p : Page) : Page :=
  match reg with
  | [] => p
  | l :: rest =>
    if String.eqb (l_type l) (ev_type event) then
      match handle (l_handler l) (l_env l) this event p with
      | (Normal _, p') => deliver rest event this p'
      | (Throw e, p') => report e p'
      end
    else deliver rest event this p
  end.

(** What the event loop does next: deliver an event, run a pending
    timeout, or let the rest of the page change its own state.  The order
    is the event loop's choice; no clock is kept, so a timeout may run at
    any point after it was scheduled, whatever its delay. *)
Inductive Input :=
| Deliver (event : Event) (this : Element)
| Timeout (id : nat)
| Mutate (w : World).

Definition set_world (w : World) (p : Page) : Page :=
  {| classes := classes p; timers := timers p; next_timer := next_timer p;
     world := w; calls := calls p; prevented := prevented p;
     uncaught := uncaught p |}.

Definition set_timers (ts : list Timer) (p : Page) : Page :=
  {| classes := classes p; timers := ts; next_timer := next_timer p;
     world := world p; calls := calls p; prevented := prevented p;
     uncaught := uncaught p |}.

(** A timeout fires once: it leaves the pending list, then its function
    runs.  A handle that is not pending does nothing. *)
Definition fire (id : nat) (p : Page) : Page :=
  match take_timer id (timers p) with
  | Some (t, rest) =>
    match deferred (t_elem t) (set_timers rest p) with
    | (Normal _, p') => p'
    | (Throw e, p') => report e p'
    end
  | None => p
  end.

Definition step (reg : list Listener) (i : Input) (p : Page) : Page :=
  match i with
  | Deliver event this => deliver reg event this p
  | Timeout id => fire id p
  | Mutate w => set_world w p
  end.

Fixpoint run (reg : list Listener) (inputs : list Input) (p : Page) : Page :=
  match inputs with
  | [] => p
  | i :: rest => run reg rest (step reg i p)
  end.

(** Every page state the run goes through, the first one included. *)
Fixpoint trajectory (reg : list Listener) (inputs : list Input) (p : Page)
  : list Page :=
  match inputs with
  | [] => [p]
  | i :: rest => p :: trajectory reg rest (step reg i p)
  end.

(** ** Vocabulary of the properties *)

(** [typeof v == 'function'] *)
Definition is_callable (v : JsValue) : bool := String.eqb (typeof v) "function".

(** The outcome of [onlyIf(el)] in page state [p]. *)
Definition only_if (cfg : Config) (el : Element) (p : Page) : Completion JsValue :=
  fst (apply_fn (onlyIf cfg) VWindow [VElem el] p).

(** [onlyIf(el)] evaluates truthy in [p]; a throwing or uncallable
    [onlyIf] does not pass. *)
Definition passes (cfg : Config) (el : Element) (p : Page) : bool :=
  match only_if cfg el p with
  | Normal v => truthy v
  | Throw _ => false
  end.

(** [$(el).removeClass('touched').removeClass('touch-started')] *)
Definition cleared (el : Element) (p : Page) : Page :=
  without_class el "touch-started" (without_class el "touched" p).

(** The page after the two statements of the touch-begin handler's
    [if] branch (lines 114-120). *)
Definition begun (cfg : Config) (el : Element) (p : Page) : Page :=
  snd (setTimeout el (touchDelay cfg) (with_class el "touch-started" p)).

(** The page after [callback.call(el, event)]. *)
Definition invoked (cfg : Config) (el : Element) (event : Event) (p : Page)
  : Page :=
  match callback_call cfg el event p with
  | (Normal _, p') => p'
  | (Throw e, p') => report e p'
  end.

(** The page after [fireCallback(el, event)]. *)
Definition fired (cfg : Config) (el : Element) (event : Event) (p : Page)
  : Page :=
  match fireCallback cfg el event p with
  | (Normal _, p') => p'
  | (Throw e, p') => report e p'
  end.

(** The log entry of [callback.call(el, event)]: the element is the
    receiver, the event the one argument. *)
Definition call_of (cfg : Config) (el : Element) (event : Event) : Call :=
  mkCall (callback cfg) (VElem el) [VEvent event].

(** The event that completes a tap: on the touch path a touch-end on an
    element carrying ['touch-started'], on the fallback path a click. *)
Definition tap_completion (touchSupported : bool) (event : Event)
    (el : Element) (p : Page) : Prop :=
  if touchSupported
  then ev_type event = "touchend" ∧ has_class "touch-started" el p = true
  else ev_type event = "click".

(** The page state in which the callback path runs for that event: the
    touch-end handler has removed both marker classes by then. *)
Definition firing_state (touchSupported : bool) (el : Element) (p : Page)
  : Page :=
  if touchSupported then cleared el p else p.

(** Neither marker class is on the element. *)
Definition idle (el : Element) (p : Page) : Prop :=
  has_class "touch-started" el p = false ∧ has_class "touched" el p = false.

(** Inputs that deliver no event: timeouts and changes of the world. *)
Definition quiet (i : Input) : Prop :=
  match i with
  | Deliver _ _ => False
  | Timeout _ | Mutate _ => True
  end.

(** Inputs that only change the world: no event, no timeout. *)
Definition mutation (i : Input) : Prop :=
  match i with
  | Mutate _ => True
  | Deliver _ _ | Timeout _ => False
  end.

(** Inputs of one touch sequence on [el] after its touch-begin: anything
    but an event for another element or a further touch-begin. *)
Definition within_touch (el : Element) (i : Input) : Prop :=
  match i with
  | Deliver event this => this = el ∧ ev_type event ≠ "touchstart"
  | Timeout _ | Mutate _ => True
  end.

(** The timeout with handle [id] is pending and closes over [el]. *)
Definition pending (id : nat) (el : Element) (p : Page) : Prop :=
  ∃ t rest, take_timer id (timers p) = Some (t, rest) ∧ t_elem t = el.

(** Handles are handed out in increasing order: every pending one is
    below the next.  True of a fresh page, and kept by every step. *)
Definition fresh_handles (p : Page) : Prop :=
  Forall (λ t, (t_id t < next_timer p)%nat) (timers p).

(** Timeouts leave the pending list only by firing; a handler can only
    append new ones, with new handles. *)
Definition timers_grow (p p' : Page) : Prop :=
  ∃ new, timers p' = timers p ++ new
       ∧ Forall (λ t, (next_timer p ≤ t_id t < next_timer p')%nat) new
       ∧ (next_timer p ≤ next_timer p')%nat.

(** The transitions of the marker classes of one element: the idle,
    touch-started, touched machine of the plugin. *)
Inductive flag_step (p p' : Page) : Prop :=
| flags_kept : classes p' = classes p → flag_step p p'
| flags_begin el :
    classes p' = classes (with_class el "touch-started" p) → flag_step p p'
| flags_long el :
    has_class "touch-started" el p = true →
    classes p' = classes (with_class el "touched" p) → flag_step p p'
| flags_clear el :
    classes p' = classes (cleared el p) → flag_step p p'.

(** Two pages that agree on everything the marker classes depend on:
    class attributes, pending timeouts, the next handle, the world. *)
Definition akin (p q : Page) : Prop :=
  classes p = classes q ∧ timers p = timers q
  ∧ next_timer p = next_timer q ∧ world p = world q.

(** No element carries ['touched'] without ['touch-started']. *)
Definition flags_consistent (p : Page) : Prop :=
  ∀ el, has_class "touched" el p = true → has_class "touch-started" el p = true.

End Page.

Arguments classes {World} p.
Arguments timers {World} p.
Arguments next_timer {World} p.
Arguments world {World} p.
Arguments calls {World} p.
Arguments prevented {World} p.
Arguments uncaught {World} p.
Arguments set_classes {World} cs p.
Arguments has_class {World} c el p.
Arguments with_class {World} el c p.
Arguments without_class {World} el c p.
Arguments log_call {World} c p.
Arguments report {World} e p.
Arguments set_world {World} w p.
Arguments set_timers {World} ts p.
Arguments cleared {World} el p.
Arguments idle {World} el p.
Arguments tap_completion {World} touchSupported event el p.
Arguments firing_state {World} touchSupported el p.
Arguments begun {World} cfg el p.
Arguments invoked {World} user_fn cfg el event p.
Arguments fired {World} user_fn cfg el event p.
Arguments pending {World} id el p.
Arguments fresh_handles {World} p.
Arguments flag_step {World} p p'.
Arguments akin {World} p q.
Arguments timers_grow {World} p p'.
Arguments flags_consistent {World} p.
Arguments Deliver {World} event this.
Arguments Timeout {World} id.
Arguments Mutate {World} w.
Arguments quiet {World} i.
Arguments mutation {World} i.
Arguments within_touch {World} el i.
Arguments apply_fn {World} user_fn f this args p.
Arguments callback_call {World} user_fn cfg el event p.
Arguments fireCallback {World} user_fn cfg el event p.
Arguments deferred {World} el p.
Arguments handle {World} user_fn h cfg this event p.
Arguments deliver {World} user_fn reg event this p.
Arguments fire {World} id p.
Arguments step {World} user_fn reg i p.
Arguments run {World} user_fn reg inputs p.
Arguments trajectory {World} user_fn reg inputs p.
Arguments only_if {World} user_fn cfg el p.
Arguments passes {World} user_fn cfg el p.

(** ** A concrete page for examples *)

(** The world is one boolean, "the page is enabled".  User function 0 is a
    callback returning nothing; 1 returns the enabled flag; 2 is the
    [onlyIf] of the usage notes, [$(el).hasClass('enabled')]; 3 answers the
    opposite of the enabled flag; any other throws. *)
Definition demo_fn (f : FunId) (w : bool) (cs : gmap Element (gset string))
    (this : JsValue) (args : list JsValue) : Completion JsValue :=
  match f with
  | 0 => Normal VUndefined
  | 1 => Normal (VBool w)
  | 2 => match args with
         | VElem el :: _ => Normal (VBool (bool_decide ("enabled" ∈ cs !!! el)))
         | _ => Throw TypeError
         end
  | 3 => Normal (VBool (negb w))
  | _ => Throw (UserExn VUndefined)
  end.

(** A freshly loaded page: no classes, nothing pending, nothing logged. *)
Definition page0 (w : bool) : Page bool :=
  {| classes := ∅; timers := []; next_timer := 0; world := w;
     calls := []; prevented := []; uncaught := [] |}.

Definition touchstart_at (el : Element) : Event := mkEvent 1 "touchstart" el.
Definition touchmove_at (el : Element) : Event := mkEvent 2 "touchmove" el.
Definition touchend_at (el : Element) : Event := mkEvent 3 "touchend" el.
Definition click_at (el : Element) : Event := mkEvent 4 "click" el.

(** [{callback: f0, touchDelay: 150}], [{callback: f0, cancelOnMove:
    false}], [{callback: f0, onlyIf: f1}], [{callback: 5}], and the
    closure variables each of them leaves. *)
Definition opts_delay : JsValue :=
  VObj [("callback", VFun (UserFn 0)); ("touchDelay", VNum 150)].
Definition opts_nomove : JsValue :=
  VObj [("callback", VFun (UserFn 0)); ("cancelOnMove", VBool false)].
Definition opts_gated : JsValue :=
  VObj [("callback", VFun (UserFn 0)); ("onlyIf", VFun (UserFn 1))].
Definition opts_broken : JsValue :=
  VObj [("callback", VNum 5)].

Definition cfg_delay : Config :=
  {| callback := VFun (UserFn 0); cancelOnMove := VBool true;
     onlyIf := VFun AlwaysTrue; touchDelay := VNum 150;
     selector := VUndefined |}.
Definition cfg_nomove : Config :=
  {| callback := VFun (UserFn 0); cancelOnMove := VBool false;
     onlyIf := VFun AlwaysTrue; touchDelay := VNum 0;
     selector := VUndefined |}.
Definition cfg_gated : Config :=
  {| callback := VFun (UserFn 0); cancelOnMove := VBool true;
     onlyIf := VFun (UserFn 1); touchDelay := VNum 0;
     selector := VUndefined |}.
Definition cfg_broken : Config :=
  {| callback := VNum 5; cancelOnMove := VBool true;
     onlyIf := VFun AlwaysTrue; touchDelay := VNum 0;
     selector := VUndefined |}.

(** An element in the middle of a touch: the page after a touch-begin on
    element 7 under the gated binding, gate open. *)
Definition touching : Page bool :=
  run demo_fn (listeners true [7] cfg_gated)
    [Deliver (touchstart_at 7) 7] (page0 true).

(** ** Further vocabulary *)

(** The two class names the plugin writes. *)
Definition marker (c : string) : bool :=
  String.eqb c "touch-started" || String.eqb c "touched".

(** Inputs other than the firing of a timeout. *)
Definition untimed {World : Type} (i : Input World) : Prop :=
  match i with
  | Timeout _ => False
  | Deliver _ _ | Mutate _ => True
  end.

(** The event types a binding listens to on the touch path. *)
Definition touch_types : list string :=
  ["touchstart"; "touchend"; "click"; "touchmove"].

(** [{callback: f0, onlyIf: 5}]: an [onlyIf] that is not a function. *)
Definition cfg_noguard : Config :=
  {| callback := VFun (UserFn 0); cancelOnMove := VBool true;
     onlyIf := VNum 5; touchDelay := VNum 0; selector := VUndefined |}.

(** [{callback: f0, onlyIf: f9}], where calling [f9] throws. *)
Definition cfg_throwing : Config :=
  {| callback := VFun (UserFn 0); cancelOnMove := VBool true;
     onlyIf := VFun (UserFn 9); touchDelay := VNum 0;
     selector := VUndefined |}.

(** A second binding on the same elements, with another callback. *)
Definition cfg_second : Config :=
  {| callback := VFun (UserFn 3); cancelOnMove := VBool true;
     onlyIf := VFun AlwaysTrue; touchDelay := VNum 0;
     selector := VUndefined |}.

(** Inputs a touch-path binding has no listener for: events of other
    types (a [touchcancel], say), timeouts, changes of the world. *)
Definition unheard {World : Type} (i : Input World) : Prop :=
  match i with
  | Deliver event _ => ev_type event ∉ touch_types
  | Timeout _ | Mutate _ => True
  end.

(** A touch-begin delivered for the element. *)
Definition touch_begin {World : Type} (el : Element) (i : Input World)
  : Prop :=
  ∃ event, i = Deliver event el ∧ ev_type event = "touchstart".

(** The events of an input whose default action a touch-path binding
    suppresses. *)
Definition suppressed {World : Type} (i : Input World) : list nat :=
  match i with
  | Deliver event _ =>
    if String.eqb (ev_type event) "click" then [ev_id event] else []
  | Timeout _ | Mutate _ => []
  end.

Definition touchcancel_at (el : Element) : Event := mkEvent 5 "touchcancel" el.

(** A selector engine that cannot parse ['#']. *)
Definition demo_selector_ok (s : string) : bool := negb (String.eqb s "#").

Section Properties.

Context {World : Type}.
Variable user_fn :
  FunId → World → gmap Element (gset string) → JsValue → list JsValue →
  Completion JsValue.

Implicit Types (p q : Page World) (cfg : Config) (el this : Element)
  (ev : Event) (c : string) (reg : list Listener) (i : Input World)
  (selector_ok : string → bool).

(** *** Bindings *)

(** The [.on] calls of one [tappable] call share the collection and the
    selector: either the first of them throws, or all are registered. *)
Lemma register_listeners selector_ok touchSupported els cfg reg :
  register selector_ok (listeners touchSupported els cfg) reg =
    match listeners touchSupported els cfg with
    | [] => Normal reg
    | _ :: _ =>
      if attachable selector_ok els (selector cfg)
      then Normal (reg ++ listeners touchSupported els cfg)
      else Throw (SelectorError (selector cfg))
    end.
Proof.
  unfold listeners.
  destruct touchSupported;
    [destruct (truthy (cancelOnMove cfg))
    |destruct (String.eqb (typeof (callback cfg)) "function")];
    simpl; unfold jq_on; simpl;
    destruct (attachable selector_ok els (selector cfg)); simpl;
    rewrite <- ?app_assoc; reflexivity.
Qed.

Lemma tappable_configured selector_ok touchSupported els options reg cfg :
  configure options = Normal cfg →
  tappable selector_ok touchSupported els options reg =
    match register selector_ok (listeners touchSupported els cfg) reg with
    | Normal reg' => Normal (els, reg')
    | Throw e => Throw e
    end.
Proof. intros Hcfg. unfold tappable. by rewrite Hcfg. Qed.

(** A call that returns has returned its receiver and left exactly
    [listeners] registered behind those that were there: the properties
    below, stated for [listeners touchSupported this cfg], are about every
    binding [tappable] makes. *)
Lemma tappable_bound selector_ok touchSupported els options reg els' reg' :
  tappable selector_ok touchSupported els options reg = Normal (els', reg') →
  ∃ cfg, configure options = Normal cfg
       ∧ els' = els ∧ reg' = reg ++ listeners touchSupported els cfg.
Proof.
  destruct (configure options) as [cfg|e] eqn:Hcfg;
    [|by unfold tappable; rewrite Hcfg].
  rewrite (tappable_configured _ _ _ _ _ _ Hcfg), register_listeners.
  destruct (listeners touchSupported els cfg) as [|l ls] eqn:Hls.
  - intros [= <- <-]. exists cfg. by rewrite Hls, app_nil_r.
  - destruct (attachable selector_ok els (selector cfg)); [|done].
    intros [= <- <-]. exists cfg. by rewrite Hls.
Qed.

(** With a selector jQuery accepts (or none), the call returns. *)
Lemma tappable_binding selector_ok touchSupported els options cfg :
  configure options = Normal cfg →
  attachable selector_ok els (selector cfg) = true →
  tappable selector_ok touchSupported els options []
  = Normal (els, listeners touchSupported els cfg).
Proof.
  intros Hcfg Hsel.
  rewrite (tappable_configured _ _ _ _ _ _ Hcfg), register_listeners, Hsel.
  by destruct (listeners touchSupported els cfg).
Qed.

(** [null] has [typeof] ['object']: the record branch reads
    [options.callback] and the call ends in a TypeError. *)
Lemma tappable_null selector_ok touchSupported els reg :
  tappable selector_ok touchSupported els VNull reg = Throw TypeError.
Proof. reflexivity. Qed.

(** *** Class attributes *)

Lemma has_class_with_class_same c c' el p :
  has_class c' el (with_class el c p) = String.eqb c' c || has_class c' el p.
Proof.
  unfold has_class, with_class, set_classes; simpl.
  rewrite lookup_total_insert_eq.
  destruct (String.eqb_spec c' c) as [->|Hne]; simpl.
  - apply bool_decide_eq_true. set_solver.
  - apply bool_decide_ext. set_solver.
Qed.

Lemma has_class_with_class_other c c' el el' p :
  el' ≠ el → has_class c' el' (with_class el c p) = has_class c' el' p.
Proof.
  intros Hne. unfold has_class, with_class, set_classes; simpl.
  by rewrite lookup_total_insert_ne.
Qed.

Lemma has_class_without_class_same c c' el p :
  has_class c' el (without_class el c p)
  = negb (String.eqb c' c) && has_class c' el p.
Proof.
  unfold has_class, without_class, set_classes; simpl.
  rewrite lookup_total_insert_eq.
  destruct (String.eqb_spec c' c) as [->|Hne]; simpl.
  - apply bool_decide_eq_false. set_solver.
  - apply bool_decide_ext. set_solver.
Qed.

Lemma has_class_without_class_other c c' el el' p :
  el' ≠ el → has_class c' el' (without_class el c p) = has_class c' el' p.
Proof.
  intros Hne. unfold has_class, without_class, set_classes; simpl.
  by rewrite lookup_total_insert_ne.
Qed.

(** Class tests only look at the class attributes. *)
Lemma has_class_ext c el p q :
  classes q = classes p → has_class c el q = has_class c el p.
Proof. unfold has_class. by intros ->. Qed.

Lemma started_cleared el p : has_class "touch-started" el (cleared el p) = false.
Proof.
  unfold cleared. rewrite has_class_without_class_same. reflexivity.
Qed.

Lemma touched_cleared el p : has_class "touched" el (cleared el p) = false.
Proof.
  unfold cleared.
  rewrite has_class_without_class_same, has_class_without_class_same.
  reflexivity.
Qed.

Lemma has_class_cleared_other c el el' p :
  el' ≠ el → has_class c el' (cleared el p) = has_class c el' p.
Proof.
  intros Hne. unfold cleared.
  by rewrite !has_class_without_class_other.
Qed.

Lemma idle_cleared el p : idle el (cleared el p).
Proof. split; [apply started_cleared | apply touched_cleared]. Qed.


(** *** What one delivery does *)

Lemma apply_fn_page (f recv : JsValue) args p :
  snd (apply_fn user_fn f recv args p) = p.
Proof. by destruct f as [ | | | | |[|]| | | | ]. Qed.

Lemma deliver_touchstart els cfg ev this p :
  ev_type ev = "touchstart" →
  deliver user_fn (listeners true els cfg) ev this p =
    match only_if user_fn cfg this p with
    | Normal v => if truthy v then begun cfg this p else p
    | Throw e => report e p
    end.
Proof.
  intros Hty. unfold listeners, only_if. simpl. rewrite Hty. simpl.
  unfold js_bind.
  pose proof (apply_fn_page (onlyIf cfg) VWindow [VElem this] p) as Hp.
  destruct (apply_fn user_fn (onlyIf cfg) VWindow [VElem this] p) as [[v|e] p'];
    simpl in *; subst p'; [|done].
  destruct (truthy v), (truthy (cancelOnMove cfg)); simpl; rewrite ?Hty; done.
Qed.


Lemma invoked_calls cfg el ev p :
  is_callable (callback cfg) = true →
  calls (invoked user_fn cfg el ev p) = calls p ++ [call_of cfg el ev].
Proof.
  unfold invoked, callback_call, is_callable, call_of.
  destruct (callback cfg) as [ | | | | |f| | | | ]; try discriminate.
  intros _.
  pose proof (apply_fn_page (VFun f) (VElem el) [VEvent ev]
    (log_call (mkCall (VFun f) (VElem el) [VEvent ev]) p)) as Hp.
  destruct (apply_fn _ _ _ _ _) as [[v|e] p']; simpl in *; by subst p'.
Qed.

Lemma invoked_frame cfg el ev p :
  classes (invoked user_fn cfg el ev p) = classes p
  ∧ timers (invoked user_fn cfg el ev p) = timers p
  ∧ next_timer (invoked user_fn cfg el ev p) = next_timer p
  ∧ world (invoked user_fn cfg el ev p) = world p.
Proof.
  unfold invoked, callback_call.
  destruct (callback cfg) as [ | | | | |f| | | | ]; try done.
  pose proof (apply_fn_page (VFun f) (VElem el) [VEvent ev]
    (log_call (mkCall (VFun f) (VElem el) [VEvent ev]) p)) as Hp.
  destruct (apply_fn _ _ _ _ _) as [[v|e] p']; simpl in *; by subst p'.
Qed.

Lemma fired_unfold cfg el ev p :
  fired user_fn cfg el ev p =
    if is_callable (callback cfg) then
      match only_if user_fn cfg el p with
      | Normal v => if truthy v then invoked user_fn cfg el ev p else p
      | Throw e => report e p
      end
    else p.
Proof.
  unfold fired, fireCallback, is_callable, only_if, invoked.
  destruct (String.eqb _ _); [|done].
  unfold js_bind.
  pose proof (apply_fn_page (onlyIf cfg) VWindow [VElem el] p) as Hp.
  destruct (apply_fn user_fn (onlyIf cfg) _ _ p) as [[v|e] p'];
    simpl in *; subst p'; [|done].
  destruct (truthy v); [|done].
  by destruct (callback_call _ _ _ _ _) as [[?|?] ?].
Qed.

Lemma fired_calls cfg el ev p :
  calls (fired user_fn cfg el ev p) =
    calls p ++ (if is_callable (callback cfg) && passes user_fn cfg el p
                then [call_of cfg el ev] else []).
Proof.
  rewrite fired_unfold. unfold passes.
  destruct (is_callable (callback cfg)) eqn:Hc; simpl;
    [|by rewrite app_nil_r].
  destruct (only_if user_fn cfg el p) as [v|e]; simpl;
    [|by rewrite app_nil_r].
  destruct (truthy v); [by apply invoked_calls | by rewrite app_nil_r].
Qed.

Lemma fired_frame cfg el ev p :
  classes (fired user_fn cfg el ev p) = classes p
  ∧ timers (fired user_fn cfg el ev p) = timers p
  ∧ next_timer (fired user_fn cfg el ev p) = next_timer p
  ∧ world (fired user_fn cfg el ev p) = world p.
Proof.
  rewrite fired_unfold.
  destruct (is_callable (callback cfg)); [|done].
  destruct (only_if user_fn cfg el p) as [v|e]; [|done].
  destruct (truthy v); [apply invoked_frame | done].
Qed.

Lemma deliver_touchend els cfg ev this p :
  ev_type ev = "touchend" →
  deliver user_fn (listeners true els cfg) ev this p =
    if has_class "touch-started" this p
    then fired user_fn cfg this ev (cleared this p)
    else p.
Proof.
  intros Hty. unfold listeners. simpl. rewrite Hty. simpl.
  unfold js_bind, hasClass, removeClass, fired, cleared.
  destruct (has_class "touch-started" this p); simpl.
  - destruct (fireCallback _ _ _ _ _) as [[?|?] ?]; simpl;
      destruct (truthy (cancelOnMove cfg)); simpl; rewrite ?Hty; done.
  - destruct (truthy (cancelOnMove cfg)); simpl; rewrite ?Hty; done.
Qed.

Lemma deliver_touchmove els cfg ev this p :
  ev_type ev = "touchmove" →
  deliver user_fn (listeners true els cfg) ev this p =
    if truthy (cancelOnMove cfg) then cleared this p else p.
Proof.
  intros Hty. unfold listeners. simpl. rewrite Hty. simpl.
  destruct (truthy (cancelOnMove cfg)); simpl; rewrite ?Hty; done.
Qed.

Lemma deliver_touch_click els cfg ev this p :
  ev_type ev = "click" →
  deliver user_fn (listeners true els cfg) ev this p =
    snd (preventDefault World ev p).
Proof.
  intros Hty. unfold listeners. simpl. rewrite Hty. simpl.
  destruct (truthy (cancelOnMove cfg)); simpl; rewrite ?Hty; done.
Qed.

Lemma deliver_touch_other els cfg ev this p :
  ev_type ev ≠ "touchstart" → ev_type ev ≠ "touchend" →
  ev_type ev ≠ "click" → ev_type ev ≠ "touchmove" →
  deliver user_fn (listeners true els cfg) ev this p = p.
Proof.
  intros H1 H2 H3 H4. unfold listeners.
  destruct (truthy (cancelOnMove cfg));
    cbn [deliver app on l_type l_handler l_env];
    repeat match goal with
           | |- context [String.eqb ?s (ev_type ev)] =>
             destruct (String.eqb_spec s (ev_type ev)); [congruence|]
           end;
    reflexivity.
Qed.

Lemma listeners_fallback els cfg :
  listeners false els cfg =
    if is_callable (callback cfg)
    then [on els "click" cfg FallbackClickHandler] else [].
Proof. reflexivity. Qed.

Lemma deliver_fallback_click els cfg ev this p :
  ev_type ev = "click" → is_callable (callback cfg) = true →
  deliver user_fn (listeners false els cfg) ev this p =
    match only_if user_fn cfg this p with
    | Normal v => if truthy v then invoked user_fn cfg this ev p else p
    | Throw e => report e p
    end.
Proof.
  intros Hty Hc. rewrite listeners_fallback, Hc. simpl. rewrite Hty. simpl.
  unfold js_bind, only_if, invoked.
  pose proof (apply_fn_page (onlyIf cfg) VWindow [VElem this] p) as Hp.
  destruct (apply_fn user_fn (onlyIf cfg) _ _ p) as [[v|e] p'];
    simpl in *; subst p'; [|done].
  destruct (truthy v); [|done].
  by destruct (callback_call _ _ _ _ _) as [[?|?] ?].
Qed.

Lemma deliver_fallback_other els cfg ev this p :
  ev_type ev ≠ "click" ∨ is_callable (callback cfg) = false →
  deliver user_fn (listeners false els cfg) ev this p = p.
Proof.
  rewrite listeners_fallback.
  destruct (is_callable (callback cfg)); [|done].
  intros [Hty|?]; [|done]. cbn [deliver app on l_type l_handler l_env].
  by destruct (String.eqb_spec "click" (ev_type ev)); [congruence|].
Qed.


Lemma deliver_touch_view els cfg ev this p :
  (ev_type ev = "touchstart"
   ∧ deliver user_fn (listeners true els cfg) ev this p =
       match only_if user_fn cfg this p with
       | Normal v => if truthy v then begun cfg this p else p
       | Throw e => report e p
       end)
  ∨ (ev_type ev = "touchend"
     ∧ deliver user_fn (listeners true els cfg) ev this p =
         if has_class "touch-started" this p
         then fired user_fn cfg this ev (cleared this p) else p)
  ∨ (ev_type ev = "touchmove"
     ∧ deliver user_fn (listeners true els cfg) ev this p =
         if truthy (cancelOnMove cfg) then cleared this p else p)
  ∨ (ev_type ev = "click"
     ∧ deliver user_fn (listeners true els cfg) ev this p =
         snd (preventDefault World ev p))
  ∨ deliver user_fn (listeners true els cfg) ev this p = p.
Proof.
  destruct (decide (ev_type ev = "touchstart")) as [H1|H1];
    [left; eauto using deliver_touchstart|].
  destruct (decide (ev_type ev = "touchend")) as [H2|H2];
    [right; left; eauto using deliver_touchend|].
  destruct (decide (ev_type ev = "touchmove")) as [H3|H3];
    [right; right; left; eauto using deliver_touchmove|].
  destruct (decide (ev_type ev = "click")) as [H4|H4];
    [right; right; right; left; eauto using deliver_touch_click|].
  right; right; right; right. by apply deliver_touch_other.
Qed.

(** *** Timeouts *)

Lemma fire_unfold id p :
  fire id p =
    match take_timer id (timers p) with
    | Some (t, rest) =>
      if has_class "touch-started" (t_elem t) p
      then with_class (t_elem t) "touched" (set_timers rest p)
      else set_timers rest p
    | None => p
    end.
Proof.
  unfold fire, deferred, js_bind, hasClass, addClass.
  destruct (take_timer id (timers p)) as [[t rest]|]; [|done].
  change (has_class "touch-started" (t_elem t) (set_timers rest p))
    with (has_class "touch-started" (t_elem t) p).
  by destruct (has_class "touch-started" (t_elem t) p).
Qed.

Lemma fire_frame id p :
  calls (fire id p) = calls p ∧ world (fire id p) = world p
  ∧ uncaught (fire id p) = uncaught p ∧ prevented (fire id p) = prevented p
  ∧ next_timer (fire id p) = next_timer p.
Proof.
  rewrite fire_unfold.
  destruct (take_timer id (timers p)) as [[t rest]|]; [|done].
  by destruct (has_class "touch-started" (t_elem t) p).
Qed.

(** A timeout never touches ['touch-started']. *)
Lemma fire_started id el p :
  has_class "touch-started" el (fire id p) = has_class "touch-started" el p.
Proof.
  rewrite fire_unfold.
  destruct (take_timer id (timers p)) as [[t rest]|]; [|done].
  destruct (has_class "touch-started" (t_elem t) p); [|done].
  destruct (decide (el = t_elem t)) as [->|Hne].
  - by rewrite has_class_with_class_same.
  - by rewrite has_class_with_class_other.
Qed.

(** A timeout applies ['touched'] only where ['touch-started'] is set. *)
Lemma fire_touched id el p :
  has_class "touched" el (fire id p) = true →
  has_class "touched" el p = true ∨ has_class "touch-started" el p = true.
Proof.
  rewrite fire_unfold.
  destruct (take_timer id (timers p)) as [[t rest]|]; [|by left].
  destruct (has_class "touch-started" (t_elem t) p) eqn:Hs; [|by left].
  destruct (decide (el = t_elem t)) as [->|Hne].
  - by right.
  - rewrite has_class_with_class_other by done. by left.
Qed.

(** *** Any registry: what a handler may do to the page *)

Lemma timers_grow_refl p q :
  timers q = timers p → next_timer q = next_timer p → timers_grow p q.
Proof.
  intros Ht Hn. exists []. rewrite app_nil_r, Hn. by repeat split.
Qed.

Lemma timers_grow_trans p q r :
  timers_grow p q → timers_grow q r → timers_grow p r.
Proof.
  intros (n1 & E1 & F1 & L1) (n2 & E2 & F2 & L2).
  exists (n1 ++ n2). rewrite E2, E1, <- app_assoc. repeat split.
  - apply Forall_app. split.
    + eapply Forall_impl; [exact F1|]. simpl. intros; lia.
    + eapply Forall_impl; [exact F2|]. simpl. intros; lia.
  - lia.
Qed.

Lemma fireCallback_frame cfg el ev p :
  classes (snd (fireCallback user_fn cfg el ev p)) = classes p
  ∧ timers (snd (fireCallback user_fn cfg el ev p)) = timers p
  ∧ next_timer (snd (fireCallback user_fn cfg el ev p)) = next_timer p
  ∧ world (snd (fireCallback user_fn cfg el ev p)) = world p.
Proof.
  pose proof (fired_frame cfg el ev p) as H. unfold fired in H.
  by destruct (fireCallback user_fn cfg el ev p) as [[?|?] ?].
Qed.

Lemma callback_call_frame cfg el ev p :
  classes (snd (callback_call user_fn cfg el ev p)) = classes p
  ∧ timers (snd (callback_call user_fn cfg el ev p)) = timers p
  ∧ next_timer (snd (callback_call user_fn cfg el ev p)) = next_timer p
  ∧ world (snd (callback_call user_fn cfg el ev p)) = world p.
Proof.
  pose proof (invoked_frame cfg el ev p) as H. unfold invoked in H.
  by destruct (callback_call user_fn cfg el ev p) as [[?|?] ?].
Qed.

Lemma handle_frame h cfg this ev p :
  world (snd (handle user_fn h cfg this ev p)) = world p
  ∧ (classes (snd (handle user_fn h cfg this ev p)) = classes p
     ∨ classes (snd (handle user_fn h cfg this ev p))
       = classes (with_class this "touch-started" p)
     ∨ classes (snd (handle user_fn h cfg this ev p))
       = classes (cleared this p))
  ∧ timers_grow p (snd (handle user_fn h cfg this ev p)).
Proof.
  destruct h; simpl; unfold js_bind.
  - pose proof (apply_fn_page (onlyIf cfg) VWindow [VElem this] p) as Hp.
    destruct (apply_fn user_fn (onlyIf cfg) _ _ p) as [[v|e] p'];
      simpl in *; subst p';
      [|by repeat split; [left|apply timers_grow_refl]].
    destruct (truthy v); simpl;
      [|by repeat split; [left|apply timers_grow_refl]].
    repeat split; [by right; left|].
    exists [mkTimer (next_timer p) this (touchDelay cfg)]. simpl.
    repeat split; [|lia]. apply Forall_singleton. simpl. lia.
  - unfold hasClass. simpl.
    destruct (has_class "touch-started" this p); simpl;
      [|by repeat split; [left|apply timers_grow_refl]].
    pose proof (fireCallback_frame cfg this ev (cleared this p))
      as (Hc & Ht & Hn & Hw).
    unfold cleared in *.
    destruct (fireCallback user_fn cfg this ev _) as [[?|?] q]; simpl in *;
      (repeat split; [done|by right; right|by apply timers_grow_refl]).
  - by repeat split; [left|apply timers_grow_refl].
  - by repeat split; [right; right|apply timers_grow_refl].
  - pose proof (apply_fn_page (onlyIf cfg) VWindow [VElem this] p) as Hp.
    destruct (apply_fn user_fn (onlyIf cfg) _ _ p) as [[v|e] p'];
      simpl in *; subst p';
      [|by repeat split; [left|apply timers_grow_refl]].
    destruct (truthy v); simpl;
      [|by repeat split; [left|apply timers_grow_refl]].
    pose proof (callback_call_frame cfg this ev p) as (Hc & Ht & Hn & Hw).
    destruct (callback_call user_fn cfg this ev p) as [[?|?] q]; simpl in *;
      (repeat split; [done|by left|by apply timers_grow_refl]).
Qed.

(** A handler never applies ['touched'], and keeps the marker classes of
    every element consistent. *)
Lemma handle_flags h cfg this ev p el :
  (has_class "touched" el (snd (handle user_fn h cfg this ev p)) = true →
   has_class "touched" el p = true)
  ∧ ((has_class "touched" el p = true → has_class "touch-started" el p = true) →
     has_class "touched" el (snd (handle user_fn h cfg this ev p)) = true →
     has_class "touch-started" el (snd (handle user_fn h cfg this ev p)) = true).
Proof.
  destruct (handle_frame h cfg this ev p) as (_ & [Hc|[Hc|Hc]] & _);
    rewrite !(has_class_ext _ _ _ _ Hc).
  - done.
  - destruct (decide (el = this)) as [->|Hne].
    + rewrite !has_class_with_class_same. simpl. done.
    + rewrite !has_class_with_class_other by done. done.
  - destruct (decide (el = this)) as [->|Hne].
    + rewrite started_cleared, touched_cleared. done.
    + rewrite !has_class_cleared_other by done. done.
Qed.

Lemma deliver_frame reg ev this p :
  world (deliver user_fn reg ev this p) = world p
  ∧ timers_grow p (deliver user_fn reg ev this p).
Proof.
  revert p. induction reg as [|l reg IH]; intros p; simpl.
  { split; [done|by apply timers_grow_refl]. }
  destruct (String.eqb (l_type l) (ev_type ev)); [|apply IH].
  destruct (handle_frame (l_handler l) (l_env l) this ev p) as (Hw & _ & Ht).
  destruct (handle user_fn _ _ _ _ p) as [[v|e] q]; simpl in *.
  - destruct (IH q) as [Hw' Ht']. split; [congruence|].
    by eapply timers_grow_trans.
  - done.
Qed.

Lemma deliver_flags reg ev this p el :
  (has_class "touched" el (deliver user_fn reg ev this p) = true →
   has_class "touched" el p = true)
  ∧ ((has_class "touched" el p = true → has_class "touch-started" el p = true) →
     has_class "touched" el (deliver user_fn reg ev this p) = true →
     has_class "touch-started" el (deliver user_fn reg ev this p) = true).
Proof.
  revert p. induction reg as [|l reg IH]; intros p; simpl; [done|].
  destruct (String.eqb (l_type l) (ev_type ev)); [|apply IH].
  destruct (handle_flags (l_handler l) (l_env l) this ev p el) as [Hm Hc].
  destruct (handle user_fn _ _ _ _ p) as [[v|e] q]; simpl in *; [|done].
  destruct (IH q) as [Hm' Hc']. split; [tauto|].
  intros Hp. apply Hc'. by apply Hc.
Qed.


(** *** Steps and runs *)

Lemma run_app reg xs ys p :
  run user_fn reg (xs ++ ys) p = run user_fn reg ys (run user_fn reg xs p).
Proof. revert p. induction xs as [|i xs IH]; intros p; simpl; [done|apply IH]. Qed.

Lemma trajectory_app (P : Page World → Prop) reg xs ys p :
  Forall P (trajectory user_fn reg xs p) →
  Forall P (trajectory user_fn reg ys (run user_fn reg xs p)) →
  Forall P (trajectory user_fn reg (xs ++ ys) p).
Proof.
  revert p. induction xs as [|i xs IH]; intros p; simpl; [done|].
  intros Hx Hy. apply Forall_cons in Hx as [Hp Hx].
  apply Forall_cons. split; [done|]. by apply IH.
Qed.

Lemma step_consistent reg i p el :
  (has_class "touched" el p = true → has_class "touch-started" el p = true) →
  has_class "touched" el (step user_fn reg i p) = true →
  has_class "touch-started" el (step user_fn reg i p) = true.
Proof.
  destruct i as [ev this|id|w]; simpl.
  - apply deliver_flags.
  - intros Hc Ht. rewrite fire_started.
    destruct (fire_touched _ _ _ Ht); auto.
  - done.
Qed.

Lemma run_consistent reg inputs p :
  flags_consistent p → flags_consistent (run user_fn reg inputs p).
Proof.
  revert p. induction inputs as [|i inputs IH]; intros p Hc; simpl; [done|].
  apply IH. intros el. apply step_consistent, Hc.
Qed.

(** ['touched'] appears only where ['touch-started'] already is. *)
Lemma step_touched_origin reg i p el :
  has_class "touched" el (step user_fn reg i p) = true →
  has_class "touched" el p = true ∨ has_class "touch-started" el p = true.
Proof.
  destruct i as [ev this|id|w]; simpl.
  - intros Ht. left. by apply (deliver_flags reg ev this p el).
  - apply fire_touched.
  - by left.
Qed.

Lemma quiet_calls reg i p :
  quiet i → calls (step user_fn reg i p) = calls p.
Proof.
  destruct i as [ev this|id|w]; simpl; [done| |done].
  intros _. apply fire_frame.
Qed.

Lemma quiet_started reg i p el :
  quiet i →
  has_class "touch-started" el (step user_fn reg i p)
  = has_class "touch-started" el p.
Proof.
  destruct i as [ev this|id|w]; simpl; [done| |done].
  intros _. apply fire_started.
Qed.

Lemma quiet_idle reg i p el :
  quiet i → idle el p → idle el (step user_fn reg i p).
Proof.
  intros Hq [Hs Ht]. split; [by rewrite quiet_started|].
  destruct (has_class "touched" el (step user_fn reg i p)) eqn:E; [|done].
  destruct (step_touched_origin _ _ _ _ E); congruence.
Qed.

Lemma run_quiet_calls reg xs p :
  Forall quiet xs → calls (run user_fn reg xs p) = calls p.
Proof.
  revert p. induction xs as [|i xs IH]; intros p Hq; simpl; [done|].
  apply Forall_cons in Hq as [Hi Hq]. rewrite IH by done.
  by apply quiet_calls.
Qed.

Lemma run_quiet_started reg xs p el :
  Forall quiet xs →
  has_class "touch-started" el (run user_fn reg xs p)
  = has_class "touch-started" el p.
Proof.
  revert p. induction xs as [|i xs IH]; intros p Hq; simpl; [done|].
  apply Forall_cons in Hq as [Hi Hq]. rewrite IH by done.
  by apply quiet_started.
Qed.

Lemma run_quiet_idle reg xs p el :
  Forall quiet xs → idle el p → idle el (run user_fn reg xs p).
Proof.
  revert p. induction xs as [|i xs IH]; intros p Hq Hi; simpl; [done|].
  apply Forall_cons in Hq as [Hq1 Hq]. apply IH; [done|].
  by apply quiet_idle.
Qed.

Lemma trajectory_quiet_idle reg xs p el :
  Forall quiet xs → idle el p →
  Forall (idle el) (trajectory user_fn reg xs p).
Proof.
  revert p. induction xs as [|i xs IH]; intros p Hq Hi; simpl.
  { by apply Forall_singleton. }
  apply Forall_cons in Hq as [Hq1 Hq]. apply Forall_cons. split; [done|].
  apply IH; [done|]. by apply quiet_idle.
Qed.

Lemma mutation_quiet i : mutation i → quiet i.
Proof. by destruct i. Qed.

Lemma mutation_classes reg i p :
  mutation i → classes (step user_fn reg i p) = classes p.
Proof. by destruct i. Qed.

Lemma run_mutation_classes reg xs p :
  Forall mutation xs → classes (run user_fn reg xs p) = classes p.
Proof.
  revert p. induction xs as [|i xs IH]; intros p Hq; simpl; [done|].
  apply Forall_cons in Hq as [Hi Hq]. rewrite IH by done.
  by apply mutation_classes.
Qed.

Lemma trajectory_mutation_classes reg xs p :
  Forall mutation xs →
  Forall (λ q, classes q = classes p) (trajectory user_fn reg xs p).
Proof.
  revert p. induction xs as [|i xs IH]; intros p Hq; simpl.
  { by apply Forall_singleton. }
  apply Forall_cons in Hq as [Hi Hq]. apply Forall_cons. split; [done|].
  eapply Forall_impl; [by apply IH|]. simpl. intros q ->.
  by apply mutation_classes.
Qed.

(** *** Pending timeouts *)

Lemma take_timer_app id ts new t rest :
  take_timer id ts = Some (t, rest) →
  take_timer id (ts ++ new) = Some (t, rest ++ new).
Proof.
  revert t rest. induction ts as [|t0 ts IH]; intros t rest; simpl; [done|].
  destruct (Nat.eqb (t_id t0) id); [by intros [= <- <-]|].
  destruct (take_timer id ts) as [[t' rest']|]; [|done].
  intros [= <- <-]. by rewrite (IH _ _ eq_refl).
Qed.

Lemma take_timer_new id ts t :
  Forall (λ t0, (t_id t0 < id)%nat) ts → t_id t = id →
  take_timer id (ts ++ [t]) = Some (t, ts).
Proof.
  intros Hf Hid. induction Hf as [|t0 ts Hlt Hf IH]; simpl.
  - by rewrite Hid, Nat.eqb_refl.
  - destruct (Nat.eqb_spec (t_id t0) id); [lia|]. by rewrite IH.
Qed.

Lemma take_timer_other id id' ts t rest t' rest' :
  id ≠ id' →
  take_timer id ts = Some (t, rest) →
  take_timer id' ts = Some (t', rest') →
  ∃ rest'', take_timer id rest' = Some (t, rest'').
Proof.
  intros Hne. revert t rest t' rest'.
  induction ts as [|t0 ts IH]; intros t rest t' rest'; simpl; [done|].
  destruct (Nat.eqb_spec (t_id t0) id) as [E|E];
    destruct (Nat.eqb_spec (t_id t0) id') as [E'|E'].
  - congruence.
  - intros [= <- <-].
    destruct (take_timer id' ts) as [[t1 r1]|]; [|done].
    intros [= <- <-]. simpl.
    destruct (Nat.eqb_spec (t_id t0) id); [|done]. eauto.
  - destruct (take_timer id ts) as [[t1 r1]|] eqn:E1; [|done].
    intros [= <- <-] [= <- <-]. eauto.
  - destruct (take_timer id ts) as [[t1 r1]|] eqn:E1; [|done].
    destruct (take_timer id' ts) as [[t2 r2]|] eqn:E2; [|done].
    intros [= <- <-] [= <- <-]. simpl.
    destruct (Nat.eqb_spec (t_id t0) id); [done|].
    destruct (IH _ _ _ _ eq_refl eq_refl) as [r ->]. eauto.
Qed.

(** A pending timeout stays pending until it fires itself. *)
Lemma step_pending reg i id el p :
  i ≠ Timeout id → pending id el p → pending id el (step user_fn reg i p).
Proof.
  intros Hi (t & rest & Ht & He). destruct i as [ev this|id'|w]; simpl.
  - destruct (deliver_frame reg ev this p) as [_ (new & Hnew & _)].
    exists t, (rest ++ new). rewrite Hnew.
    split; [by apply take_timer_app|done].
  - rewrite fire_unfold.
    destruct (take_timer id' (timers p)) as [[t' rest']|] eqn:E';
      [|by exists t, rest].
    assert (id ≠ id') as Hne by congruence.
    destruct (take_timer_other _ _ _ _ _ _ _ Hne Ht E') as [r Hr].
    exists t, r.
    by destruct (has_class "touch-started" (t_elem t') p).
  - by exists t, rest.
Qed.

Lemma run_pending reg xs id el p :
  Forall (λ i, i ≠ Timeout id) xs → pending id el p →
  pending id el (run user_fn reg xs p).
Proof.
  revert p. induction xs as [|i xs IH]; intros p Hx Hp; simpl; [done|].
  apply Forall_cons in Hx as [Hi Hx]. apply IH; [done|].
  by apply step_pending.
Qed.

Lemma take_timer_Forall (P : Timer → Prop) id ts t rest :
  Forall P ts → take_timer id ts = Some (t, rest) → Forall P rest.
Proof.
  intros Hf. revert t rest.
  induction Hf as [|t0 ts H0 Hf IH]; intros t rest; simpl; [done|].
  destruct (Nat.eqb (t_id t0) id); [by intros [= <- <-]|].
  destruct (take_timer id ts) as [[t' rest']|]; [|done].
  intros [= <- <-]. apply Forall_cons. split; [done|]. by eapply IH.
Qed.

Lemma step_fresh_handles reg i p :
  fresh_handles p → fresh_handles (step user_fn reg i p).
Proof.
  unfold fresh_handles. intros Hf. destruct i as [ev this|id|w]; simpl.
  - destruct (deliver_frame reg ev this p) as [_ (new & -> & Hnew & Hle)].
    apply Forall_app. split.
    + eapply Forall_impl; [exact Hf|]. simpl. intros; lia.
    + eapply Forall_impl; [exact Hnew|]. simpl. intros; lia.
  - rewrite fire_unfold.
    destruct (take_timer id (timers p)) as [[t rest]|] eqn:E; [|done].
    pose proof (take_timer_Forall _ _ _ _ _ Hf E).
    by destruct (has_class "touch-started" (t_elem t) p).
  - done.
Qed.

(** Every page reached from one with increasing handles has them. *)
Lemma run_fresh_handles reg inputs p :
  fresh_handles p → fresh_handles (run user_fn reg inputs p).
Proof.
  revert p. induction inputs as [|i inputs IH]; intros p Hf; simpl; [done|].
  by apply IH, step_fresh_handles.
Qed.

Lemma fire_pending id el p :
  pending id el p → has_class "touch-started" el p = true →
  has_class "touched" el (fire id p) = true.
Proof.
  intros (t & rest & Ht & <-) Hs. rewrite fire_unfold, Ht, Hs.
  by rewrite has_class_with_class_same.
Qed.


(** *** One binding: deliveries seen from outside *)

Lemma touchstart_calls els cfg ev this p :
  ev_type ev = "touchstart" →
  calls (deliver user_fn (listeners true els cfg) ev this p) = calls p.
Proof.
  intros Hty. rewrite deliver_touchstart by done.
  destruct (only_if user_fn cfg this p) as [v|e]; [|done].
  by destruct (truthy v).
Qed.

Lemma touchstart_passes els cfg ev this p :
  ev_type ev = "touchstart" → passes user_fn cfg this p = true →
  deliver user_fn (listeners true els cfg) ev this p = begun cfg this p.
Proof.
  intros Hty Hp. rewrite deliver_touchstart by done. unfold passes in Hp.
  destruct (only_if user_fn cfg this p) as [v|e]; [|done]. by rewrite Hp.
Qed.

Lemma touchstart_blocked els cfg ev this p :
  ev_type ev = "touchstart" → passes user_fn cfg this p = false →
  classes (deliver user_fn (listeners true els cfg) ev this p) = classes p.
Proof.
  intros Hty Hp. rewrite deliver_touchstart by done. unfold passes in Hp.
  destruct (only_if user_fn cfg this p) as [v|e]; [|done]. by rewrite Hp.
Qed.

Lemma started_begun cfg el p :
  has_class "touch-started" el (begun cfg el p) = true.
Proof.
  rewrite (has_class_ext _ _ (with_class el "touch-started" p)) by done.
  by rewrite has_class_with_class_same.
Qed.

Lemma touched_begun cfg el p :
  has_class "touched" el (begun cfg el p) = has_class "touched" el p.
Proof.
  rewrite (has_class_ext _ _ (with_class el "touch-started" p)) by done.
  by rewrite has_class_with_class_same.
Qed.

Lemma idle_ext el p q : classes q = classes p → idle el p → idle el q.
Proof. intros Hc [H1 H2]. split; by rewrite (has_class_ext _ _ p). Qed.

Lemma only_if_ext cfg cfg' el p q :
  onlyIf cfg' = onlyIf cfg → world q = world p → classes q = classes p →
  only_if user_fn cfg' el q = only_if user_fn cfg el p.
Proof.
  intros Ho Hw Hc. unfold only_if, apply_fn. rewrite Ho.
  destruct (onlyIf cfg) as [ | | | | |[|f]| | | | ]; try done.
  simpl. by rewrite Hw, Hc.
Qed.

(** The delivery of a tap-completing event extends the log by the one
    call, or by nothing. *)
Lemma tap_calls ts els cfg ev this p :
  tap_completion ts ev this p →
  calls (deliver user_fn (listeners ts els cfg) ev this p) =
    calls p ++
    (if is_callable (callback cfg)
        && passes user_fn cfg this (firing_state ts this p)
     then [call_of cfg this ev] else []).
Proof.
  destruct ts; unfold tap_completion, firing_state; lazy iota.
  - intros [Hty Hs]. rewrite deliver_touchend, Hs by done.
    by rewrite fired_calls.
  - intros Hty. destruct (is_callable (callback cfg)) eqn:Hc; cbn [andb].
    + rewrite deliver_fallback_click by done. unfold passes.
      destruct (only_if user_fn cfg this p) as [v|e];
        [|by rewrite app_nil_r].
      destruct (truthy v); [by apply invoked_calls|by rewrite app_nil_r].
    + rewrite deliver_fallback_other by auto. by rewrite app_nil_r.
Qed.


(** *** The marker classes along a run *)

Lemma idle_not_touched el p : idle el p → has_class "touched" el p ≠ true.
Proof. intros [_ Ht]. by rewrite Ht. Qed.

(** Where ['touched'] is set at the end of a run from an idle page, there
    is an earlier point of the run at which the element carried
    ['touch-started'] but not yet ['touched'], and it carried
    ['touch-started'] ever since. *)
Lemma touched_history reg inputs p0 el :
  (∀ el', idle el' p0) →
  has_class "touched" el (run user_fn reg inputs p0) = true →
  ∃ pre post,
    inputs = pre ++ post ∧ post ≠ []
    ∧ has_class "touch-started" el (run user_fn reg pre p0) = true
    ∧ has_class "touched" el (run user_fn reg pre p0) = false
    ∧ ∀ k, has_class "touch-started" el
             (run user_fn reg (pre ++ take k post) p0) = true.
Proof.
  intros Hidle.
  assert (∀ xs, has_class "touched" el (run user_fn reg xs p0) = true →
                has_class "touch-started" el (run user_fn reg xs p0) = true)
    as Hcons.
  { intros xs. apply run_consistent. intros el' Ht.
    by destruct (idle_not_touched _ _ (Hidle el')). }
  induction inputs as [|i xs IH] using rev_ind; simpl.
  { intros Ht. by destruct (idle_not_touched _ _ (Hidle el)). }
  intros Ht. pose proof (Hcons _ Ht) as Hs.
  rewrite run_app in Ht. cbn [run] in Ht.
  destruct (has_class "touched" el (run user_fn reg xs p0)) eqn:Hprev.
  - destruct (IH eq_refl) as (pre & post & -> & Hne & Hs0 & Ht0 & Hk).
    exists pre, (post ++ [i]). rewrite app_assoc.
    split; [done|]. split; [by destruct post|].
    split; [done|]. split; [done|].
    intros k. destruct (decide (k ≤ length post)%nat) as [Hle|Hgt].
    + rewrite take_app_le by done. apply Hk.
    + rewrite take_ge by (rewrite length_app; simpl; lia).
      by rewrite app_assoc.
  - destruct (step_touched_origin _ _ _ _ Ht) as [?|Hs0]; [congruence|].
    exists xs, [i]. split; [done|]. split; [done|].
    split; [done|]. split; [done|].
    intros [|k]; simpl.
    + by rewrite app_nil_r.
    + by rewrite take_nil.
Qed.

(** Every step of a binding is a transition of the flag machine. *)
Lemma binding_flag_step ts els cfg i p :
  flag_step p (step user_fn (listeners ts els cfg) i p).
Proof.
  destruct i as [ev this|id|w]; cbn [step].
  - destruct ts.
    + destruct (deliver_touch_view els cfg ev this p)
        as [[_ ->]|[[_ ->]|[[_ ->]|[[_ ->]| ->]]]].
      * destruct (only_if user_fn cfg this p) as [v|e];
          [|by apply flags_kept].
        destruct (truthy v); [by eapply flags_begin|by apply flags_kept].
      * destruct (has_class "touch-started" this p); [|by apply flags_kept].
        eapply flags_clear. apply fired_frame.
      * destruct (truthy (cancelOnMove cfg));
          [by eapply flags_clear|by apply flags_kept].
      * by apply flags_kept.
      * by apply flags_kept.
    + destruct (decide (ev_type ev = "click")) as [Hty|Hty];
        [destruct (is_callable (callback cfg)) eqn:Hc|].
      * rewrite deliver_fallback_click by done. apply flags_kept.
        destruct (only_if user_fn cfg this p) as [v|e]; [|done].
        destruct (truthy v); [apply invoked_frame|done].
      * rewrite deliver_fallback_other by auto. by apply flags_kept.
      * rewrite deliver_fallback_other by auto. by apply flags_kept.
  - rewrite fire_unfold.
    destruct (take_timer id (timers p)) as [[t rest]|]; [|by apply flags_kept].
    destruct (has_class "touch-started" (t_elem t) p) eqn:Hs;
      [by eapply flags_long|by apply flags_kept].
  - by apply flags_kept.
Qed.

(** Within a touch sequence that found the element idle, nothing sets a
    marker class on it or fires, once ['touch-started'] was not set. *)
Lemma within_touch_idle els cfg i this p :
  within_touch this i → idle this p →
  idle this (step user_fn (listeners true els cfg) i p)
  ∧ calls (step user_fn (listeners true els cfg) i p) = calls p.
Proof.
  intros Hw Hi. destruct i as [ev el|id|w].
  - destruct Hw as [-> Hty]. cbn [step].
    destruct (deliver_touch_view els cfg ev this p)
      as [[? _]|[[_ ->]|[[_ ->]|[[_ ->]| ->]]]]; [done| | |done|done].
    + destruct Hi as [Hs Ht]. by rewrite Hs.
    + destruct (truthy (cancelOnMove cfg)); [|done].
      split; [apply idle_cleared|done].
  - split; [by apply quiet_idle|by apply quiet_calls].
  - split; [by apply quiet_idle|by apply quiet_calls].
Qed.

(** *** Two bindings that differ in the callback only *)

Lemma akin_refl p : akin p p.
Proof. done. Qed.

Lemma akin_has_class c el p q :
  akin p q → has_class c el q = has_class c el p.
Proof. intros (Hc & _). by apply has_class_ext. Qed.

Lemma akin_with_class el c p q :
  akin p q → akin (with_class el c p) (with_class el c q).
Proof.
  intros (Hc & Ht & Hn & Hw). unfold akin, with_class, set_classes; simpl.
  by rewrite Hc.
Qed.

Lemma akin_cleared el p q : akin p q → akin (cleared el p) (cleared el q).
Proof.
  intros (Hc & Ht & Hn & Hw).
  unfold akin, cleared, without_class, set_classes; simpl. by rewrite Hc.
Qed.

Lemma akin_frame p p' q q' :
  akin p q →
  classes p' = classes p ∧ timers p' = timers p
  ∧ next_timer p' = next_timer p ∧ world p' = world p →
  classes q' = classes q ∧ timers q' = timers q
  ∧ next_timer q' = next_timer q ∧ world q' = world q →
  akin p' q'.
Proof.
  unfold akin.
  intros (Hc & Ht & Hn & Hw) (-> & -> & -> & ->) (-> & -> & -> & ->). done.
Qed.

Lemma step_akin els cfg cb i p q :
  akin p q →
  akin (step user_fn (listeners true els cfg) i p)
       (step user_fn (listeners true els (set_callback cb cfg)) i q).
Proof.
  intros Ha. pose proof Ha as (Hc & Ht & Hn & Hw).
  destruct i as [ev this|id|w]; cbn [step].
  - destruct (decide (ev_type ev = "touchstart")) as [H1|H1].
    { rewrite !deliver_touchstart by done.
      rewrite (only_if_ext cfg (set_callback cb cfg) this p q) by done.
      destruct (only_if user_fn cfg this p) as [v|e]; [|done].
      destruct (truthy v); [|done].
      unfold akin, begun, with_class, set_classes; simpl.
      by rewrite Hc, Ht, Hn. }
    destruct (decide (ev_type ev = "touchend")) as [H2|H2].
    { rewrite !deliver_touchend by done.
      rewrite (akin_has_class _ _ _ _ Ha).
      destruct (has_class "touch-started" this p); [|done].
      eapply akin_frame; [by apply akin_cleared|apply fired_frame..]. }
    destruct (decide (ev_type ev = "touchmove")) as [H3|H3].
    { rewrite !deliver_touchmove by done. simpl.
      destruct (truthy (cancelOnMove cfg)); [by apply akin_cleared|done]. }
    destruct (decide (ev_type ev = "click")) as [H4|H4].
    { rewrite !deliver_touch_click by done. done. }
    by rewrite !deliver_touch_other.
  - rewrite !fire_unfold, <- Ht.
    destruct (take_timer id (timers p)) as [[t rest]|]; [|done].
    rewrite (akin_has_class _ _ _ _ Ha).
    assert (akin (set_timers rest p) (set_timers rest q)) as Ha' by done.
    destruct (has_class "touch-started" (t_elem t) p); [|done].
    by apply akin_with_class.
  - done.
Qed.

Lemma run_akin els cfg cb inputs p q :
  akin p q →
  akin (run user_fn (listeners true els cfg) inputs p)
       (run user_fn (listeners true els (set_callback cb cfg)) inputs q).
Proof.
  revert p q. induction inputs as [|i inputs IH]; intros p q Ha; simpl;
    [done|].
  apply IH. by apply step_akin.
Qed.

(** *** A binding without a callable callback *)

Lemma step_uncallable ts els cfg i p :
  is_callable (callback cfg) = false →
  calls (step user_fn (listeners ts els cfg) i p) = calls p
  ∧ ((∀ el, ∃ v, only_if user_fn cfg el p = Normal v) →
     uncaught (step user_fn (listeners ts els cfg) i p) = uncaught p).
Proof.
  intros Hcb. destruct i as [ev this|id|w]; cbn [step].
  - destruct ts; [|by rewrite deliver_fallback_other by auto].
    destruct (deliver_touch_view els cfg ev this p)
      as [[_ ->]|[[_ ->]|[[_ ->]|[[_ ->]| ->]]]]; [| | |done|done].
    + split.
      * destruct (only_if user_fn cfg this p) as [v|e]; [|done].
        by destruct (truthy v).
      * intros Hok. destruct (Hok this) as [v ->]. by destruct (truthy v).
    + destruct (has_class "touch-started" this p); [|done].
      by rewrite fired_unfold, Hcb.
    + by destruct (truthy (cancelOnMove cfg)).
  - split; [apply fire_frame|intros _; apply fire_frame].
  - done.
Qed.

Lemma run_uncallable_calls ts els cfg inputs p :
  is_callable (callback cfg) = false →
  calls (run user_fn (listeners ts els cfg) inputs p) = calls p.
Proof.
  intros Hcb. revert p. induction inputs as [|i inputs IH]; intros p; simpl;
    [done|].
  rewrite IH. by apply step_uncallable.
Qed.

Lemma run_uncallable_uncaught ts els cfg inputs p :
  is_callable (callback cfg) = false →
  (∀ el q, ∃ v, only_if user_fn cfg el q = Normal v) →
  uncaught (run user_fn (listeners ts els cfg) inputs p) = uncaught p.
Proof.
  intros Hcb Hok. revert p.
  induction inputs as [|i inputs IH]; intros p; simpl; [done|].
  rewrite IH. apply step_uncallable; [done|]. intros el. apply Hok.
Qed.

Lemma configure_record props :
  configure (VObj props) =
    Normal {| callback := lookup_prop "callback" props;
              cancelOnMove :=
                match lookup_prop "cancelOnMove" props with
                | VUndefined => VBool true | v => v end;
              onlyIf :=
                match lookup_prop "onlyIf" props with
                | VUndefined => VFun AlwaysTrue | v => v end;
              touchDelay :=
                match lookup_prop "touchDelay" props with
                | VUndefined => VNum 0 | v => v end;
              selector := lookup_prop "selector" props |}.
Proof.
  unfold configure, override. simpl.
  by destruct (lookup_prop "cancelOnMove" props),
    (lookup_prop "onlyIf" props), (lookup_prop "touchDelay" props),
    (lookup_prop "selector" props).
Qed.

(** ** The claims *)

(** C1 — For every binding and every tap-completing event (on the touch
    path a touch-end on an element that carries ['touch-started'], on the
    fallback path a click), the delivery invokes the callback if and only
    if the configured callback is callable and [onlyIf(element)] evaluates
    truthy in the page state at invocation time (on the touch path the
    state after both marker classes were removed, whatever [onlyIf]
    answered at touch-begin).  The delivery adds at most one call, and that
    call is [callback.call(element, event)]: the element and the
    triggering event are what is passed, the element as the receiver and
    the event as the argument. *)
Theorem C1_callback_fires_iff_callable_and_gate_open
    (touchSupported : bool) els cfg ev this p :
  tap_completion touchSupported ev this p →
  let at_fire := firing_state touchSupported this p in
  let p' :=
    step user_fn (listeners touchSupported els cfg) (Deliver ev this) p in
  (calls p' ≠ calls p ↔
     is_callable (callback cfg) = true ∧ passes user_fn cfg this at_fire = true)
  ∧ calls p' =
      calls p ++
      (if is_callable (callback cfg) && passes user_fn cfg this at_fire
       then [{| c_fn := callback cfg; c_this := VElem this;
                c_args := [VEvent ev] |}]
       else []).
Proof.
  intros Htap at_fire p'. subst at_fire p'. simpl step.
  rewrite (tap_calls _ _ _ _ _ _ Htap). split; [|done].
  destruct (is_callable (callback cfg)), (passes user_fn cfg this _); simpl.
  - split; [done|]. intros _ Heq.
    apply (f_equal length) in Heq. rewrite length_app in Heq. simpl in Heq. lia.
  - rewrite app_nil_r. split; [done|]. by intros [_ ?].
  - rewrite app_nil_r. split; [done|]. by intros [? _].
  - rewrite app_nil_r. split; [done|]. by intros [? _].
Qed.

(** C2 — For every binding with a truthy [cancelOnMove]: a touch-begin, a
    touch-move and a touch-end on an element, with any timeouts firing and
    any changes of the page's own state before, between and after them,
    never invoke the callback, and leave neither ['touch-started'] nor
    ['touched'] on the element — from any page state. *)
Theorem C2_move_cancels_the_tap els cfg e1 e2 e3 this xs ys zs p :
  truthy (cancelOnMove cfg) = true →
  ev_type e1 = "touchstart" → ev_type e2 = "touchmove" →
  ev_type e3 = "touchend" →
  Forall quiet xs → Forall quiet ys → Forall quiet zs →
  let p' :=
    run user_fn (listeners true els cfg)
      (Deliver e1 this :: xs ++ Deliver e2 this :: ys ++ Deliver e3 this :: zs)
      p in
  calls p' = calls p
  ∧ has_class "touch-started" this p' = false
  ∧ has_class "touched" this p' = false.
Proof.
  intros Hmove H1 H2 H3 Hxs Hys Hzs p'. subst p'.
  cbn [run step]. rewrite run_app. cbn [run step]. rewrite run_app.
  cbn [run step].
  set (reg := listeners true els cfg).
  set (p1 := deliver user_fn reg e1 this p).
  set (p2 := run user_fn reg xs p1).
  assert (calls p2 = calls p) as Hc2.
  { subst p2. rewrite run_quiet_calls by done. by apply touchstart_calls. }
  set (p3 := deliver user_fn reg e2 this p2).
  assert (p3 = cleared this p2) as E3.
  { subst p3 reg. by rewrite deliver_touchmove, Hmove. }
  set (p4 := run user_fn reg ys p3).
  assert (idle this p4 ∧ calls p4 = calls p) as [Hi4 Hc4].
  { subst p4. split.
    - apply run_quiet_idle; [done|]. rewrite E3. apply idle_cleared.
    - rewrite run_quiet_calls by done. by rewrite E3. }
  set (p5 := deliver user_fn reg e3 this p4).
  assert (p5 = p4) as E5.
  { subst p5 reg. rewrite deliver_touchend by done.
    destruct Hi4 as [-> _]. done. }
  rewrite E5.
  assert (idle this (run user_fn reg zs p4)) as [? ?]
    by by apply run_quiet_idle.
  by rewrite run_quiet_calls.
Qed.

(** C3 — For every binding with a falsy [cancelOnMove] and a callable
    callback: no touch-move listener is registered, so after a touch-begin
    at which [onlyIf] passes, a touch-move and any timeouts or changes of
    the page's own state, the element still carries ['touch-started'], and
    the touch-end, [onlyIf] passing again, invokes the callback exactly
    once. *)
Theorem C3_move_ignored_without_cancelOnMove els cfg e1 e2 e3 this xs ys p :
  truthy (cancelOnMove cfg) = false →
  is_callable (callback cfg) = true →
  ev_type e1 = "touchstart" → ev_type e2 = "touchmove" →
  ev_type e3 = "touchend" →
  Forall quiet xs → Forall quiet ys →
  let reg := listeners true els cfg in
  let held := run user_fn reg (Deliver e1 this :: xs ++ Deliver e2 this :: ys) p in
  passes user_fn cfg this p = true →
  passes user_fn cfg this (cleared this held) = true →
  Forall (λ l, l_type l ≠ "touchmove") reg
  ∧ has_class "touch-started" this held = true
  ∧ calls (step user_fn reg (Deliver e3 this) held)
    = calls p ++ [call_of cfg this e3].
Proof.
  intros Hmove Hcb H1 H2 H3 Hxs Hys reg held Hp1 Hp3.
  assert (Forall (λ l, l_type l ≠ "touchmove") reg) as Hreg.
  { subst reg. unfold listeners. rewrite Hmove.
    by repeat (apply Forall_cons; split; [done|]). }
  split; [done|].
  assert (has_class "touch-started" this held = true ∧ calls held = calls p)
    as [Hs Hc].
  { subst held. cbn [run step]. rewrite run_app. cbn [run step].
    subst reg. rewrite (touchstart_passes _ _ _ _ _ H1 Hp1).
    rewrite (deliver_touchmove _ _ _ _ _ H2), Hmove.
    rewrite !run_quiet_started, !run_quiet_calls by done.
    split; [apply started_begun|done]. }
  split; [done|].
  cbn [step]. subst reg.
  rewrite (tap_calls true) by done. cbn [firing_state].
  by rewrite Hcb, Hp3, Hc.
Qed.


(** C5 — In every state a page reaches from one without marker classes,
    under any registered listeners and any inputs: an element that carries
    ['touched'] carries ['touch-started'], and did so without interruption
    since a point of the run at which ['touched'] was not yet set.  Every
    step that takes ['touch-started'] off an element leaves it without
    ['touched'] as well; a completing touch-end and a cancelling
    touch-move leave the element with neither class; and every step of a
    binding is one transition of the flag machine (keep, begin, long,
    clear). *)
Theorem C5_touched_only_over_touch_started reg inputs p0 :
  (∀ el, idle el p0) →
  let p := run user_fn reg inputs p0 in
  flags_consistent p
  ∧ (∀ el, has_class "touched" el p = true →
       ∃ pre post,
         inputs = pre ++ post ∧ post ≠ []
         ∧ has_class "touch-started" el (run user_fn reg pre p0) = true
         ∧ has_class "touched" el (run user_fn reg pre p0) = false
         ∧ ∀ k, has_class "touch-started" el
                  (run user_fn reg (pre ++ take k post) p0) = true)
  ∧ (∀ i q el,
       has_class "touch-started" el q = true →
       has_class "touch-started" el (step user_fn reg i q) = false →
       has_class "touched" el (step user_fn reg i q) = false)
  ∧ (∀ els cfg ev this q,
       ev_type ev = "touchend" → has_class "touch-started" this q = true →
       idle this (step user_fn (listeners true els cfg) (Deliver ev this) q))
  ∧ (∀ els cfg ev this q,
       ev_type ev = "touchmove" → truthy (cancelOnMove cfg) = true →
       idle this (step user_fn (listeners true els cfg) (Deliver ev this) q))
  ∧ (∀ ts els cfg i q,
       flag_step q (step user_fn (listeners ts els cfg) i q)).
Proof.
  intros Hidle p. subst p.
  split; [|split; [|split; [|split; [|split]]]].
  - apply run_consistent. intros el Ht.
    by destruct (idle_not_touched _ _ (Hidle el)).
  - intros el. by apply touched_history.
  - intros i q el Hs Hs'.
    destruct (has_class "touched" el (step user_fn reg i q)) eqn:Ht; [|done].
    rewrite (step_consistent reg i q el) in Hs'; done.
  - intros els cfg ev this q Hty Hs. cbn [step].
    rewrite deliver_touchend, Hs by done.
    apply (idle_ext _ (cleared this q)); [apply fired_frame|apply idle_cleared].
  - intros els cfg ev this q Hty Hm. cbn [step].
    rewrite deliver_touchmove, Hm by done. apply idle_cleared.
  - intros ts els cfg i q. apply binding_flag_step.
Qed.

(** C6 (amended) — For every binding on the touch path: if
    [onlyIf(target)] does not pass at the touch-begin of an element that
    carries neither marker class, then through the whole touch sequence
    (touch-moves, touch-ends and other events on the element, timeouts,
    changes of the page's own state, up to the next touch-begin) the
    element carries neither marker class and the callback is never
    invoked, whatever [onlyIf] would answer later. *)
Theorem C6_gate_closed_at_touch_begin els cfg e1 this rest p :
  ev_type e1 = "touchstart" →
  passes user_fn cfg this p = false →
  idle this p →
  Forall (within_touch this) rest →
  Forall (λ q, idle this q ∧ calls q = calls p)
    (trajectory user_fn (listeners true els cfg) (Deliver e1 this :: rest) p).
Proof.
  intros H1 Hp Hi Hrest. cbn [trajectory step].
  apply Forall_cons. split; [done|].
  set (reg := listeners true els cfg).
  assert (idle this (deliver user_fn reg e1 this p)
          ∧ calls (deliver user_fn reg e1 this p) = calls p) as Hstart.
  { subst reg. split; [|by apply touchstart_calls].
    apply (idle_ext _ p); [by apply touchstart_blocked|done]. }
  revert Hstart. generalize (deliver user_fn reg e1 this p). intros q.
  revert q. induction Hrest as [|i rest Hw Hrest IH]; intros q [Hq Hc].
  { by apply Forall_singleton. }
  cbn [trajectory]. apply Forall_cons. split; [done|].
  apply IH. subst reg.
  destruct (within_touch_idle els cfg i this q Hw Hq) as [? Hc'].
  split; [done|congruence].
Qed.

(** C7 — For every binding whose callback is absent or not callable: no
    input ever invokes a callback, on either path.  On the touch path the
    marker classes are toggled all the same: a touch-begin at which
    [onlyIf] passes sets ['touch-started'] and schedules the timeout, the
    timeout firing on an element that carries ['touch-started'] sets
    ['touched'], a touch-end on such an element removes both classes and
    does nothing else, and so does a cancelling touch-move; input for
    input the class attributes and the pending timeouts are those of the
    same binding with any other callback in its place, and the same
    listeners are registered.  On the fallback path no listener is
    registered at all.  The configuration raises nothing: parsing an
    options record returns whatever its [callback] entry holds, the
    fallback path attaches nothing and so cannot throw, on the touch path
    the listeners are attached whenever they are with another callback in
    the place of this one, and as long as [onlyIf] itself returns, no
    handler ends in an exception. *)
Theorem C7_uncallable_callback_never_fires selector_ok els cfg :
  is_callable (callback cfg) = false →
  (∀ ts inputs p,
     calls (run user_fn (listeners ts els cfg) inputs p) = calls p)
  ∧ (∀ ev this p,
       ev_type ev = "touchstart" → passes user_fn cfg this p = true →
       let p' := step user_fn (listeners true els cfg) (Deliver ev this) p in
       has_class "touch-started" this p' = true
       ∧ timers p'
         = timers p ++ [mkTimer (next_timer p) this (touchDelay cfg)])
  ∧ (∀ id this p,
       pending id this p → has_class "touch-started" this p = true →
       has_class "touched" this
         (step user_fn (listeners true els cfg) (Timeout id) p) = true)
  ∧ (∀ ev this p,
       ev_type ev = "touchend" → has_class "touch-started" this p = true →
       let p' := step user_fn (listeners true els cfg) (Deliver ev this) p in
       p' = cleared this p ∧ idle this p')
  ∧ (∀ ev this p,
       ev_type ev = "touchmove" → truthy (cancelOnMove cfg) = true →
       let p' := step user_fn (listeners true els cfg) (Deliver ev this) p in
       p' = cleared this p ∧ idle this p')
  ∧ (∀ cb inputs p,
       let with_it :=
         run user_fn (listeners true els (set_callback cb cfg)) inputs p in
       let without := run user_fn (listeners true els cfg) inputs p in
       classes without = classes with_it ∧ timers without = timers with_it)
  ∧ (∀ cb, map l_type (listeners true els cfg)
           = map l_type (listeners true els (set_callback cb cfg)))
  ∧ listeners false els cfg = []
  ∧ (∀ props,
       ∃ cfg', configure (VObj props) = Normal cfg'
             ∧ callback cfg' = lookup_prop "callback" props)
  ∧ (∀ reg, register selector_ok (listeners false els cfg) reg = Normal reg)
  ∧ (∀ cb reg reg',
       register selector_ok (listeners true els (set_callback cb cfg)) reg
       = Normal reg' →
       register selector_ok (listeners true els cfg) reg
       = Normal (reg ++ listeners true els cfg))
  ∧ (∀ ts inputs p,
       (∀ el q, ∃ v, only_if user_fn cfg el q = Normal v) →
       uncaught (run user_fn (listeners ts els cfg) inputs p) = uncaught p).
Proof.
  intros Hcb.
  split; [|split; [|split; [|split; [|split; [|split; [|split; [|split;
    [|split; [|split; [|split]]]]]]]]]].
  - intros ts inputs p. by apply run_uncallable_calls.
  - intros ev this p Hty Hp p'. subst p'. cbn [step].
    rewrite touchstart_passes by done. split; [apply started_begun|done].
  - intros id this p Hpend Hs. cbn [step]. by apply fire_pending.
  - intros ev this p Hty Hs p'. subst p'. cbn [step].
    rewrite deliver_touchend, Hs, fired_unfold, Hcb by done.
    split; [done|apply idle_cleared].
  - intros ev this p Hty Hm p'. subst p'. cbn [step].
    rewrite deliver_touchmove, Hm by done.
    split; [done|apply idle_cleared].
  - intros cb inputs p with_it without. subst with_it without.
    destruct (run_akin els cfg cb inputs p p (akin_refl p)) as (? & ? & _).
    done.
  - intros cb. unfold listeners. simpl.
    by destruct (truthy (cancelOnMove cfg)).
  - by rewrite listeners_fallback, Hcb.
  - intros props. rewrite configure_record. by eexists.
  - intros reg. by rewrite listeners_fallback, Hcb.
  - intros cb reg reg'. rewrite !register_listeners.
    change (selector (set_callback cb cfg)) with (selector cfg).
    assert (∃ l ls, listeners true els cfg = l :: ls) as (l & ls & Hl)
      by (unfold listeners; simpl; eauto).
    assert (∃ l' ls', listeners true els (set_callback cb cfg) = l' :: ls')
      as (l' & ls' & Hl') by (unfold listeners; simpl; eauto).
    rewrite Hl, Hl'.
    by destruct (attachable selector_ok els (selector cfg)).
  - intros ts inputs p Hok. by apply run_uncallable_uncaught.
Qed.

(** C8 — On a runtime without touch support, with a callable callback:
    exactly one listener is registered, a click listener on the bound
    scope with the configured selector; a click delivered for an element
    invokes the callback exactly once if [onlyIf(target)] passes at that
    moment and not at all otherwise; and no delivery changes any class
    attribute, so that with no timeout pending (none is ever scheduled on
    this path) the class attributes stay as they are through any run. *)
Theorem C8_fallback_click_fires_once els cfg :
  is_callable (callback cfg) = true →
  let reg := listeners false els cfg in
  reg = [ {| l_scope := els; l_type := "click"; l_selector := selector cfg;
             l_handler := FallbackClickHandler; l_env := cfg |} ]
  ∧ (∀ ev this p,
       ev_type ev = "click" →
       calls (step user_fn reg (Deliver ev this) p) =
         calls p ++ (if passes user_fn cfg this p
                     then [call_of cfg this ev] else []))
  ∧ (∀ ev this p,
       classes (step user_fn reg (Deliver ev this) p) = classes p
       ∧ timers (step user_fn reg (Deliver ev this) p) = timers p)
  ∧ (∀ inputs p,
       timers p = [] → classes (run user_fn reg inputs p) = classes p).
Proof.
  intros Hcb reg.
  assert (∀ ev this p,
            classes (step user_fn reg (Deliver ev this) p) = classes p
            ∧ timers (step user_fn reg (Deliver ev this) p) = timers p)
    as Hframe.
  { intros ev this p. subst reg. cbn [step].
    destruct (decide (ev_type ev = "click")) as [Hty|Hty];
      [|by rewrite deliver_fallback_other by auto].
    rewrite deliver_fallback_click by done.
    destruct (only_if user_fn cfg this p) as [v|e]; [|done].
    destruct (truthy v); [|done].
    by destruct (invoked_frame cfg this ev p) as (? & ? & _). }
  split; [|split; [|split]].
  - subst reg. by rewrite listeners_fallback, Hcb.
  - intros ev this p Hty. subst reg. cbn [step].
    rewrite (tap_calls false) by done. cbn [firing_state].
    by rewrite Hcb.
  - done.
  - intros inputs. induction inputs as [|i inputs IH]; intros p Ht; simpl;
      [done|].
    destruct i as [ev this|id|w].
    + destruct (Hframe ev this p) as [Hc Ht']. rewrite IH; [done|].
      by rewrite Ht'.
    + cbn [step]. rewrite fire_unfold, Ht. simpl. by apply IH.
    + by rewrite IH.
Qed.

(** C9 — On the touch path, every click delivered to the binding has its
    default action suppressed: [preventDefault()] is called on the event
    whatever [onlyIf] answers, whatever classes the element carries and
    whatever the callback is, and that is all the delivery does. *)
Theorem C9_click_default_always_prevented els cfg ev this p :
  ev_type ev = "click" →
  let p' := step user_fn (listeners true els cfg) (Deliver ev this) p in
  ev_id ev ∈ prevented p'
  ∧ prevented p' = prevented p ++ [ev_id ev]
  ∧ classes p' = classes p ∧ timers p' = timers p
  ∧ calls p' = calls p ∧ uncaught p' = uncaught p.
Proof.
  intros Hty p'. subst p'. cbn [step]. rewrite deliver_touch_click by done.
  simpl. repeat split. set_solver.
Qed.

(** C10 — For every options value whose [typeof] is neither ['function']
    nor ['object'] (undefined, a boolean, a number, a string), the call
    behaves as with the empty record [{}]: the callback stays undefined,
    [cancelOnMove] is [true], [touchDelay] is 0, [onlyIf] is the
    always-true function and the selector is undefined; with touch support
    the four touch listeners are registered and a touch-begin marks the
    element ['touch-started'], while without touch support no listener is
    registered. *)
Theorem C10_other_options_mean_defaults selector_ok options :
  typeof options ≠ "function" → typeof options ≠ "object" →
  configure options = Normal defaults
  ∧ configure (VObj []) = Normal defaults
  ∧ defaults = {| callback := VUndefined; cancelOnMove := VBool true;
                  onlyIf := VFun AlwaysTrue; touchDelay := VNum 0;
                  selector := VUndefined |}
  ∧ (∀ ts els reg,
       tappable selector_ok ts els options reg
       = tappable selector_ok ts els (VObj []) reg)
  ∧ (∀ els reg,
       ∃ bound, tappable selector_ok true els options reg
                = Normal (els, reg ++ bound)
              ∧ map l_type bound
                = ["touchstart"; "touchend"; "click"; "touchmove"])
  ∧ (∀ els reg,
       tappable selector_ok false els options reg = Normal (els, reg ++ []))
  ∧ (∀ els ev this p,
       ev_type ev = "touchstart" →
       has_class "touch-started" this
         (step user_fn (listeners true els defaults) (Deliver ev this) p)
       = true).
Proof.
  intros Hf Ho.
  assert (configure options = Normal defaults) as Hcfg.
  { unfold configure.
    destruct (String.eqb_spec (typeof options) "function"); [done|].
    by destruct (String.eqb_spec (typeof options) "object"). }
  split; [done|]. split; [done|]. split; [done|].
  split; [|split; [|split]].
  - intros ts els reg. unfold tappable. by rewrite Hcfg.
  - intros els reg.
    rewrite (tappable_configured _ _ _ _ _ _ Hcfg), register_listeners.
    assert (attachable selector_ok els (selector defaults) = true) as ->
      by (by destruct els).
    simpl. by eexists.
  - intros els reg.
    rewrite (tappable_configured _ _ _ _ _ _ Hcfg). simpl.
    by rewrite app_nil_r.
  - intros els ev this p Hty. cbn [step].
    rewrite touchstart_passes by done. apply started_begun.
Qed.

(** ** Further properties of the code *)

(** *** Option parsing *)

(** X1 — [$.fn.tappable] raises at binding time in exactly two cases.
    For the options value [null] (its [typeof] is ['object'], and reading
    [options.callback] is a TypeError); and when the first listener it
    attaches has a selector jQuery rejects, which takes a non-empty
    collection, a non-empty selector string that jQuery's selector engine
    cannot parse, and a listener to attach at all (on the fallback path
    there is none without a callable callback).  In every other case it
    returns its receiver and appends its listeners behind those already
    registered, none of which is removed or reordered. *)
Theorem X1_binding_time_errors selector_ok touchSupported els options reg :
  (options = VNull →
   tappable selector_ok touchSupported els options reg = Throw TypeError)
  ∧ (options ≠ VNull →
     ∃ cfg,
       configure options = Normal cfg
       ∧ tappable selector_ok touchSupported els options reg =
           match listeners touchSupported els cfg with
           | [] => Normal (els, reg)
           | _ :: _ =>
             if attachable selector_ok els (selector cfg)
             then Normal (els, reg ++ listeners touchSupported els cfg)
             else Throw (SelectorError (selector cfg))
           end).
Proof.
  split.
  - by intros ->.
  - intros Hnn.
    assert (∃ cfg, configure options = Normal cfg) as [cfg Hcfg].
    { destruct options as [ | |b|n|s|f|props|e|ev| ]; try done;
        try (by eexists).
      rewrite configure_record. by eexists. }
    exists cfg. split; [done|].
    rewrite (tappable_configured _ _ _ _ _ _ Hcfg), register_listeners.
    destruct (listeners touchSupported els cfg); [done|].
    by destruct (attachable selector_ok els (selector cfg)).
Qed.

(** X2 — The short form [tappable(f)] is the long form
    [tappable({callback: f})]: a function given as options and any record
    whose [callback] is that function and whose other four options are
    missing or undefined leave the same closure variables, hence register
    the same listeners. *)
Theorem X2_function_is_callback_record selector_ok f props touchSupported els reg :
  lookup_prop "callback" props = VFun f →
  lookup_prop "cancelOnMove" props = VUndefined →
  lookup_prop "onlyIf" props = VUndefined →
  lookup_prop "touchDelay" props = VUndefined →
  lookup_prop "selector" props = VUndefined →
  configure (VObj props) = configure (VFun f)
  ∧ tappable selector_ok touchSupported els (VObj props) reg
    = tappable selector_ok touchSupported els (VFun f) reg.
Proof.
  intros Hcb Hm Ho Hd Hs.
  assert (configure (VObj props) = configure (VFun f)) as Hcfg.
  { rewrite configure_record, Hcb, Hm, Ho, Hd, Hs. reflexivity. }
  split; [done|]. unfold tappable. by rewrite Hcfg.
Qed.

Lemma touchmove_registered els cfg :
  (∃ l, l ∈ listeners true els cfg ∧ l_type l = "touchmove")
  ↔ truthy (cancelOnMove cfg) = true.
Proof.
  unfold listeners. destruct (truthy (cancelOnMove cfg)); simpl.
  - split; [done|]. intros _. eexists.
    split; [apply list_elem_of_In; right; right; right; left; reflexivity|].
    reflexivity.
  - split; [|done]. intros (l & Hl & Hty).
    apply list_elem_of_In in Hl. simpl in Hl.
    destruct Hl as [<-|[<-|[<-|[]]]]; discriminate.
Qed.

(** X3 — In an options record, [cancelOnMove] counts as given unless it is
    missing or [undefined]: on the touch path the touch-move listener is
    registered exactly when the entry is missing, [undefined] or truthy;
    [false], [null], [0] and the empty string all switch it off. *)
Theorem X3_touchmove_listener_iff_cancelOnMove props els cfg :
  configure (VObj props) = Normal cfg →
  (∃ l, l ∈ listeners true els cfg ∧ l_type l = "touchmove")
  ↔ (lookup_prop "cancelOnMove" props = VUndefined
     ∨ truthy (lookup_prop "cancelOnMove" props) = true).
Proof.
  rewrite configure_record. intros [= <-]. rewrite touchmove_registered.
  simpl.
  destruct (lookup_prop "cancelOnMove" props) as [ | |b|n|s|g|ps|e|ev| ];
    simpl; split; auto; intros [?|?]; done.
Qed.

(** *** What the handlers leave alone *)

Lemma marker_false c :
  marker c = false → c ≠ "touch-started" ∧ c ≠ "touched".
Proof.
  unfold marker. intros H. apply orb_false_iff in H as [H1 H2].
  split; intros ->; discriminate.
Qed.

Lemma has_class_with_class_ne c c' el el' p :
  c' ≠ c → has_class c' el' (with_class el c p) = has_class c' el' p.
Proof.
  intros Hne. destruct (decide (el' = el)) as [->|He].
  - rewrite has_class_with_class_same.
    by destruct (String.eqb_spec c' c).
  - by apply has_class_with_class_other.
Qed.

Lemma has_class_without_class_ne c c' el el' p :
  c' ≠ c → has_class c' el' (without_class el c p) = has_class c' el' p.
Proof.
  intros Hne. destruct (decide (el' = el)) as [->|He].
  - rewrite has_class_without_class_same.
    by destruct (String.eqb_spec c' c).
  - by apply has_class_without_class_other.
Qed.

Lemma handle_other_class h cfg this ev p c el :
  marker c = false →
  has_class c el (snd (handle user_fn h cfg this ev p)) = has_class c el p.
Proof.
  intros Hm. apply marker_false in Hm as [H1 H2].
  destruct (handle_frame h cfg this ev p) as (_ & [Hc|[Hc|Hc]] & _);
    rewrite (has_class_ext _ _ _ _ Hc).
  - done.
  - by apply has_class_with_class_ne.
  - unfold cleared. by rewrite !has_class_without_class_ne.
Qed.

Lemma handle_other_element h cfg this ev p c el :
  el ≠ this →
  has_class c el (snd (handle user_fn h cfg this ev p)) = has_class c el p.
Proof.
  intros Hne.
  destruct (handle_frame h cfg this ev p) as (_ & [Hc|[Hc|Hc]] & _);
    rewrite (has_class_ext _ _ _ _ Hc).
  - done.
  - by apply has_class_with_class_other.
  - by apply has_class_cleared_other.
Qed.

(** Whatever holds of a class test across every handler holds across a
    delivery. *)
Lemma deliver_preserves_class reg ev this p c el :
  (∀ h cfg q,
     has_class c el (snd (handle user_fn h cfg this ev q)) = has_class c el q) →
  has_class c el (deliver user_fn reg ev this p) = has_class c el p.
Proof.
  intros Hh. revert p. induction reg as [|l reg IH]; intros p; simpl; [done|].
  destruct (String.eqb (l_type l) (ev_type ev)); [|apply IH].
  specialize (Hh (l_handler l) (l_env l) p).
  destruct (handle user_fn _ _ _ _ p) as [[v|e] q]; simpl in *.
  - by rewrite IH.
  - done.
Qed.

Lemma fire_other_class id c el p :
  c ≠ "touched" → has_class c el (fire id p) = has_class c el p.
Proof.
  intros Hne. rewrite fire_unfold.
  destruct (take_timer id (timers p)) as [[t rest]|]; [|done].
  destruct (has_class "touch-started" (t_elem t) p); [|done].
  by rewrite has_class_with_class_ne.
Qed.

(** X4 — The plugin writes no class but its two markers: through any run,
    under any registered listeners, every other class of every element
    (an ['enabled'] class that [onlyIf] reads, say) is exactly as it
    was. *)
Theorem X4_only_marker_classes_are_written reg inputs p c el :
  marker c = false →
  has_class c el (run user_fn reg inputs p) = has_class c el p.
Proof.
  intros Hm. revert p.
  induction inputs as [|i inputs IH]; intros p; simpl; [done|].
  rewrite IH. destruct i as [ev this|id|w]; simpl.
  - apply deliver_preserves_class. intros h cfg q.
    by apply handle_other_class.
  - apply fire_other_class. by apply marker_false in Hm as [_ ?].
  - done.
Qed.

(** X5 — A delivery for one element changes no class of any other
    element, and a timeout changes none but that of the element its
    touch-begin was delivered for. *)
Theorem X5_other_elements_are_left_alone reg p c el :
  (∀ ev this,
     el ≠ this →
     has_class c el (step user_fn reg (Deliver ev this) p) = has_class c el p)
  ∧ (∀ id t rest,
       take_timer id (timers p) = Some (t, rest) → el ≠ t_elem t →
       has_class c el (step user_fn reg (Timeout id) p) = has_class c el p).
Proof.
  split.
  - intros ev this Hne. simpl. apply deliver_preserves_class.
    intros h cfg q. by apply handle_other_element.
  - intros id t rest Ht Hne. simpl. rewrite fire_unfold, Ht.
    destruct (has_class "touch-started" (t_elem t) p); [|done].
    by rewrite has_class_with_class_other.
Qed.

(** *** When the callback can run *)

(** X6 — A binding invokes its callback on no other occasion than the
    delivery of a tap-completing event (a touch-end on an element carrying
    ['touch-started'] on the touch path, a click on the fallback path),
    and then once: a touch-begin, a touch-move, a click on the touch path,
    any other event, a timeout and a change of the page's own state leave
    the log of calls as it is. *)
Theorem X6_callback_runs_only_on_tap_completion touchSupported els cfg i p :
  let p' := step user_fn (listeners touchSupported els cfg) i p in
  calls p' = calls p
  ∨ ∃ ev this,
      i = Deliver ev this ∧ tap_completion touchSupported ev this p
      ∧ calls p' = calls p ++ [call_of cfg this ev].
Proof.
  intros p'. subst p'. destruct i as [ev this|id|w]; cbn [step].
  - assert (tap_completion touchSupported ev this p →
            calls (deliver user_fn (listeners touchSupported els cfg) ev this p)
            = calls p
            ∨ ∃ ev0 this0,
                (Deliver ev this : Input World) = Deliver ev0 this0
                ∧ tap_completion touchSupported ev0 this0 p
                ∧ calls (deliver user_fn (listeners touchSupported els cfg)
                           ev this p)
                  = calls p ++ [call_of cfg this0 ev0]) as Htap.
    { intros Htap. rewrite (tap_calls _ _ _ _ _ _ Htap).
      destruct (is_callable (callback cfg) && passes user_fn cfg this _).
      - right. by exists ev, this.
      - left. by rewrite app_nil_r. }
    destruct touchSupported.
    + destruct (deliver_touch_view els cfg ev this p)
        as [[Hty E]|[[Hty E]|[[_ E]|[[_ E]|E]]]].
      * left. by apply touchstart_calls.
      * destruct (has_class "touch-started" this p) eqn:Hs.
        { by apply Htap. }
        { left. by rewrite E. }
      * left. rewrite E. by destruct (truthy (cancelOnMove cfg)).
      * left. by rewrite E.
      * left. by rewrite E.
    + destruct (decide (ev_type ev = "click")) as [Hty|Hty].
      * by apply Htap.
      * left. by rewrite deliver_fallback_other by auto.
  - left. apply fire_frame.
  - by left.
Qed.

(** X7 — No event delivery applies ['touched'], whatever [touchDelay] is
    (0 included): through a run in which no timeout fires, under any
    registered listeners, an element that does not carry ['touched'] never
    comes to carry it. *)
Theorem X7_touched_is_never_applied_synchronously reg inputs p el :
  Forall untimed inputs →
  has_class "touched" el p = false →
  has_class "touched" el (run user_fn reg inputs p) = false.
Proof.
  intros Hin. revert p.
  induction Hin as [|i inputs Hi Hin IH]; intros p Hp; cbn [run]; [done|].
  apply IH. destruct i as [ev this|id|w]; cbn [step]; [|done|done].
  destruct (has_class "touched" el (deliver user_fn reg ev this p)) eqn:Ht;
    [|done].
  destruct (deliver_flags reg ev this p el) as [Hm _].
  rewrite (Hm Ht) in Hp. done.
Qed.

(** *** Timeouts are only ever added *)

Lemma run_untimed_timers reg inputs p :
  Forall untimed inputs →
  timers p `prefix_of` timers (run user_fn reg inputs p).
Proof.
  intros Hin. revert p.
  induction Hin as [|i inputs Hi Hin IH]; intros p; simpl; [done|].
  etrans; [|apply IH]. destruct i as [ev this|id|w]; simpl in *.
  - destruct (deliver_frame reg ev this p) as [_ (new & -> & _)].
    by apply prefix_app_r.
  - done.
  - done.
Qed.

(** X8 — The plugin never cancels or merges a timeout.  Through any run
    in which no timeout fires, under any registered listeners, the
    timeouts that were pending stay pending in their order; and [n]
    touch-begins in a row on an element whose [onlyIf] passes schedule [n]
    timeouts, each for that element and with the configured [touchDelay],
    although the element carries ['touch-started'] from the first on. *)
Theorem X8_timeouts_are_never_cancelled_or_merged els cfg this inputs p :
  (∀ q, passes user_fn cfg this q = true) →
  Forall (touch_begin this) inputs →
  (∃ new,
     timers (run user_fn (listeners true els cfg) inputs p) = timers p ++ new
     ∧ length new = length inputs
     ∧ Forall (λ t, t_elem t = this ∧ t_delay t = touchDelay cfg) new)
  ∧ (∀ reg later,
       Forall untimed later →
       timers (run user_fn (listeners true els cfg) inputs p)
       `prefix_of`
       timers (run user_fn reg later
                 (run user_fn (listeners true els cfg) inputs p))).
Proof.
  intros Hpass Hin. split; [|intros reg later; apply run_untimed_timers].
  revert p. induction Hin as [|i inputs (ev & -> & Hty) Hin IH]; intros p.
  { exists []. by rewrite app_nil_r. }
  cbn [run step]. rewrite (touchstart_passes _ _ _ _ _ Hty (Hpass p)).
  destruct (IH (begun cfg this p)) as (new & -> & Hlen & Hall).
  exists (mkTimer (next_timer p) this (touchDelay cfg) :: new).
  split; [by simpl; rewrite <- app_assoc|]. split; [by simpl; rewrite Hlen|].
  by apply Forall_cons.
Qed.

(** X12 — A timeout is not tied to the touch that scheduled it: it looks
    at the class the element carries when it fires.  After a tap (a
    touch-begin and its touch-end) and the touch-begin of a second touch
    on the same element, the first tap's timeout, when it fires, applies
    ['touched'] to the second touch, while the second touch's own timeout
    is still pending. *)
Theorem X12_stale_timeout_marks_the_next_touch els cfg this e1 e2 e3 p :
  ev_type e1 = "touchstart" → ev_type e2 = "touchend" →
  ev_type e3 = "touchstart" →
  fresh_handles p →
  passes user_fn cfg this p = true →
  let reg := listeners true els cfg in
  let released := run user_fn reg [Deliver e1 this; Deliver e2 this] p in
  passes user_fn cfg this released = true →
  let again := step user_fn reg (Deliver e3 this) released in
  has_class "touched" this (step user_fn reg (Timeout (next_timer p)) again)
  = true
  ∧ pending (S (next_timer p)) this
      (step user_fn reg (Timeout (next_timer p)) again).
Proof.
  intros H1 H2 H3 Hfresh Hp1 reg released Hp3 again.
  assert (step user_fn reg (Deliver e1 this) p = begun cfg this p) as E1
    by (by apply touchstart_passes).
  assert (pending (next_timer p) this (begun cfg this p)) as Hpend1.
  { exists (mkTimer (next_timer p) this (touchDelay cfg)), (timers p).
    split; [|done]. by apply take_timer_new. }
  assert (pending (next_timer p) this released) as Hpend2.
  { subst released. cbn [run]. rewrite E1. by apply step_pending. }
  assert (next_timer released = S (next_timer p)) as Hnext.
  { subst released reg. cbn [run step]. cbn [step] in E1. rewrite E1.
    rewrite deliver_touchend by done.
    destruct (has_class "touch-started" this (begun cfg this p)); [|done].
    by destruct (fired_frame cfg this e2 (cleared this (begun cfg this p)))
      as (_ & _ & -> & _). }
  assert (fresh_handles released) as Hfresh2
    by (subst released; by apply run_fresh_handles).
  assert (again = begun cfg this released) as E3
    by (subst again reg; by apply touchstart_passes).
  split.
  - cbn [step]. apply fire_pending.
    + subst again. by apply step_pending.
    + rewrite E3. apply started_begun.
  - apply step_pending; [intros [= Heq]; lia|]. rewrite E3, <- Hnext.
    exists (mkTimer (next_timer released) this (touchDelay cfg)),
      (timers released).
    split; [|done]. by apply take_timer_new.
Qed.

(** *** Exceptions *)

Lemma only_if_uncallable cfg el p :
  is_callable (onlyIf cfg) = false →
  only_if user_fn cfg el p = Throw TypeError.
Proof.
  unfold is_callable, only_if, apply_fn.
  by destruct (onlyIf cfg) as [ | | | | |[|f]| | | | ].
Qed.

Lemma fire_unstarted id p :
  (∀ el, has_class "touch-started" el p = false) →
  calls (fire id p) = calls p
  ∧ ∀ el, has_class "touch-started" el (fire id p) = false.
Proof.
  intros Hno. split; [apply fire_frame|].
  intros el. by rewrite fire_started.
Qed.

(** X9 — [onlyIf] is not checked before it is called.  With an [onlyIf]
    that is not a function, every touch-begin ends in a TypeError before
    any class is set or timeout scheduled, and on the fallback path every
    click ends in one before the callback is reached; so from a page on
    which no element carries ['touch-started'] the binding never sets that
    class and never invokes the callback, on either path. *)
Theorem X9_uncallable_onlyIf_disables_the_binding els cfg :
  is_callable (onlyIf cfg) = false →
  (∀ ev this p,
     ev_type ev = "touchstart" →
     step user_fn (listeners true els cfg) (Deliver ev this) p
     = report TypeError p)
  ∧ (∀ ev this p,
       ev_type ev = "click" → is_callable (callback cfg) = true →
       step user_fn (listeners false els cfg) (Deliver ev this) p
       = report TypeError p)
  ∧ (∀ touchSupported inputs p,
       (∀ el, has_class "touch-started" el p = false) →
       calls (run user_fn (listeners touchSupported els cfg) inputs p)
       = calls p
       ∧ ∀ el, has_class "touch-started" el
                 (run user_fn (listeners touchSupported els cfg) inputs p)
               = false).
Proof.
  intros Hoi. split; [|split].
  - intros ev this p Hty. cbn [step].
    by rewrite deliver_touchstart, only_if_uncallable.
  - intros ev this p Hty Hcb. cbn [step].
    by rewrite deliver_fallback_click, only_if_uncallable.
  - intros ts inputs. induction inputs as [|i inputs IH]; intros p Hno;
      simpl; [done|].
    assert (calls (step user_fn (listeners ts els cfg) i p) = calls p
            ∧ ∀ el, has_class "touch-started" el
                      (step user_fn (listeners ts els cfg) i p) = false)
      as [Hc Hno'].
    { destruct i as [ev this|id|w]; cbn [step].
      - destruct ts.
        + destruct (deliver_touch_view els cfg ev this p)
            as [[_ ->]|[[_ ->]|[[_ ->]|[[_ ->]| ->]]]]; [| | |done|done].
          * by rewrite only_if_uncallable.
          * by rewrite Hno.
          * destruct (truthy (cancelOnMove cfg)); [|done].
            split; [done|]. intros el.
            destruct (decide (el = this)) as [->|Hne].
            { apply started_cleared. }
            { by rewrite has_class_cleared_other. }
        + destruct (decide (ev_type ev = "click")) as [Hty|Hty];
            [destruct (is_callable (callback cfg)) eqn:Hcb|].
          * by rewrite deliver_fallback_click, only_if_uncallable.
          * by rewrite deliver_fallback_other by auto.
          * by rewrite deliver_fallback_other by auto.
      - by apply fire_unstarted.
      - done. }
    destruct (IH _ Hno') as [Hc' Hfin]. split; [congruence|done].
Qed.

Lemma invoked_unfold cfg el ev p :
  is_callable (callback cfg) = true →
  invoked user_fn cfg el ev p =
    match fst (apply_fn user_fn (callback cfg) (VElem el) [VEvent ev] p) with
    | Normal _ => log_call (call_of cfg el ev) p
    | Throw e => report e (log_call (call_of cfg el ev) p)
    end.
Proof.
  unfold invoked, callback_call, is_callable, call_of.
  destruct (callback cfg) as [ | | | | |f| | | | ]; try discriminate.
  intros _. by destruct f.
Qed.

(** X13 — What a handler did before an exception stays done.  When a
    touch-end finds ['touch-started'] and the callback is callable: if
    [onlyIf] throws, both marker classes are removed, the callback is not
    invoked and the error is reported; if [onlyIf] passes and the callback
    itself throws, the classes are removed, the invocation is in the log
    and the error is reported. *)
Theorem X13_release_clears_classes_before_it_can_throw els cfg ev this p e :
  ev_type ev = "touchend" →
  has_class "touch-started" this p = true →
  is_callable (callback cfg) = true →
  let p' := step user_fn (listeners true els cfg) (Deliver ev this) p in
  (only_if user_fn cfg this (cleared this p) = Throw e →
   p' = report e (cleared this p))
  ∧ (passes user_fn cfg this (cleared this p) = true →
     fst (apply_fn user_fn (callback cfg) (VElem this) [VEvent ev]
            (cleared this p)) = Throw e →
     p' = report e (log_call (call_of cfg this ev) (cleared this p)))
  ∧ idle this p'.
Proof.
  intros Hty Hs Hcb p'. subst p'. cbn [step].
  rewrite deliver_touchend, Hs by done. rewrite fired_unfold, Hcb.
  split; [|split].
  - by intros ->.
  - unfold passes. intros Hp Hthrow.
    destruct (only_if user_fn cfg this (cleared this p)) as [v|?]; [|done].
    by rewrite Hp, invoked_unfold, Hthrow.
  - apply (idle_ext _ (cleared this p)); [|apply idle_cleared].
    pose proof (fired_frame cfg this ev (cleared this p)) as (Hc & _).
    by rewrite fired_unfold, Hcb in Hc.
Qed.

(** *** Events without a listener *)

(** X14 — Nothing but a touch-end or a touch-move takes
    ['touch-started'] off an element, and there is no listener for any
    other way a touch can end: through events of types the binding does
    not listen to (a [touchcancel], say), timeouts and changes of the
    page's own state, every element that carries ['touch-started'] keeps
    it, and the log of calls stays as it is. *)
Theorem X14_unheard_events_leave_the_touch_open els cfg inputs p :
  Forall unheard inputs →
  calls (run user_fn (listeners true els cfg) inputs p) = calls p
  ∧ ∀ el, has_class "touch-started" el
            (run user_fn (listeners true els cfg) inputs p)
          = has_class "touch-started" el p.
Proof.
  intros Hin. revert p.
  induction Hin as [|i inputs Hi Hin IH]; intros p; cbn [run]; [done|].
  destruct (IH (step user_fn (listeners true els cfg) i p)) as [Hc Hs].
  assert (calls (step user_fn (listeners true els cfg) i p) = calls p
          ∧ ∀ el, has_class "touch-started" el
                    (step user_fn (listeners true els cfg) i p)
                  = has_class "touch-started" el p) as [Hc1 Hs1].
  { destruct i as [ev this|id|w]; cbn [step].
    - simpl in Hi. unfold touch_types in Hi.
      rewrite deliver_touch_other; [done|..]; intros Heq; apply Hi;
        rewrite Heq; set_solver.
    - split; [apply fire_frame|intros el; apply fire_started].
    - done. }
  split; [by rewrite Hc|]. intros el. by rewrite Hs, Hs1.
Qed.

(** *** Default actions *)

Lemma invoked_prevented cfg el ev p :
  prevented (invoked user_fn cfg el ev p) = prevented p.
Proof.
  unfold invoked, callback_call.
  destruct (callback cfg) as [ | | | | |f| | | | ]; try done.
  pose proof (apply_fn_page (VFun f) (VElem el) [VEvent ev]
    (log_call (mkCall (VFun f) (VElem el) [VEvent ev]) p)) as Hp.
  destruct (apply_fn _ _ _ _ _) as [[v|e] p']; simpl in *; by subst p'.
Qed.

Lemma fired_prevented cfg el ev p :
  prevented (fired user_fn cfg el ev p) = prevented p.
Proof.
  rewrite fired_unfold.
  destruct (is_callable (callback cfg)); [|done].
  destruct (only_if user_fn cfg el p) as [v|e]; [|done].
  destruct (truthy v); [apply invoked_prevented|done].
Qed.

Lemma step_touch_prevented els cfg i p :
  prevented (step user_fn (listeners true els cfg) i p)
  = prevented p ++ suppressed i.
Proof.
  destruct i as [ev this|id|w]; cbn [step suppressed].
  - destruct (String.eqb_spec (ev_type ev) "click") as [Hty|Hty].
    { by rewrite deliver_touch_click. }
    rewrite app_nil_r.
    destruct (deliver_touch_view els cfg ev this p)
      as [[_ ->]|[[_ ->]|[[_ ->]|[[? _]| ->]]]]; [| | |done|done].
    + destruct (only_if user_fn cfg this p) as [v|e]; [|done].
      by destruct (truthy v).
    + destruct (has_class "touch-started" this p); [|done].
      by rewrite fired_prevented.
    + by destruct (truthy (cancelOnMove cfg)).
  - rewrite app_nil_r. apply fire_frame.
  - by rewrite app_nil_r.
Qed.

Lemma step_fallback_prevented els cfg i p :
  prevented (step user_fn (listeners false els cfg) i p) = prevented p.
Proof.
  destruct i as [ev this|id|w]; cbn [step].
  - destruct (decide (ev_type ev = "click")) as [Hty|Hty];
      [destruct (is_callable (callback cfg)) eqn:Hcb|].
    + rewrite deliver_fallback_click by done.
      destruct (only_if user_fn cfg this p) as [v|e]; [|done].
      destruct (truthy v); [apply invoked_prevented|done].
    + by rewrite deliver_fallback_other by auto.
    + by rewrite deliver_fallback_other by auto.
  - apply fire_frame.
  - done.
Qed.

(** X11 — The only default action the plugin ever suppresses is that of
    a click on the touch path.  A touch-path binding calls
    [preventDefault()] on exactly the click events delivered to it, in
    their order, and on no touch event (scrolling is not blocked); a
    fallback binding never calls it, so on a runtime without touch support
    a click keeps its default action. *)
Theorem X11_only_touch_path_clicks_are_suppressed els cfg inputs p :
  prevented (run user_fn (listeners true els cfg) inputs p)
  = prevented p ++ flat_map suppressed inputs
  ∧ prevented (run user_fn (listeners false els cfg) inputs p) = prevented p.
Proof.
  split; revert p; induction inputs as [|i inputs IH]; intros p; cbn [run].
  - by rewrite app_nil_r.
  - rewrite IH, step_touch_prevented. simpl. by rewrite app_assoc.
  - done.
  - by rewrite IH, step_fallback_prevented.
Qed.

(** *** Two bindings on the same elements *)

Lemma deliver_touchend_then els cfg tail ev this p :
  ev_type ev = "touchend" →
  deliver user_fn (listeners true els cfg ++ tail) ev this p =
    if has_class "touch-started" this p
    then match fireCallback user_fn cfg this ev (cleared this p) with
         | (Normal _, q) => deliver user_fn tail ev this q
         | (Throw e, q) => report e q
         end
    else deliver user_fn tail ev this p.
Proof.
  intros Hty. unfold listeners. simpl. rewrite Hty. simpl.
  unfold js_bind, hasClass, removeClass, cleared.
  destruct (has_class "touch-started" this p); simpl.
  - destruct (fireCallback _ _ _ _ _) as [[?|?] ?]; simpl;
      destruct (truthy (cancelOnMove cfg)); simpl; rewrite ?Hty; done.
  - destruct (truthy (cancelOnMove cfg)); simpl; rewrite ?Hty; done.
Qed.

Lemma handle_quiet_calls h cfg this ev p :
  h ≠ TouchEndHandler → h ≠ FallbackClickHandler →
  calls (snd (handle user_fn h cfg this ev p)) = calls p.
Proof.
  intros H1 H2. destruct h; try done; simpl; unfold js_bind.
  pose proof (apply_fn_page (onlyIf cfg) VWindow [VElem this] p) as Hp.
  destruct (apply_fn user_fn (onlyIf cfg) _ _ p) as [[v|e] p'];
    simpl in *; subst p'; [|done].
  by destruct (truthy v).
Qed.

Lemma deliver_quiet_calls reg ev this p :
  Forall (λ l, l_type l = ev_type ev →
               l_handler l ≠ TouchEndHandler
               ∧ l_handler l ≠ FallbackClickHandler) reg →
  calls (deliver user_fn reg ev this p) = calls p.
Proof.
  intros Hreg. revert p.
  induction Hreg as [|l reg Hl Hreg IH]; intros p; simpl; [done|].
  destruct (String.eqb_spec (l_type l) (ev_type ev)) as [Hty|Hty];
    [|apply IH].
  destruct (Hl Hty) as [H1 H2].
  pose proof (handle_quiet_calls (l_handler l) (l_env l) this ev p H1 H2)
    as Hc.
  destruct (handle user_fn _ _ _ _ p) as [[v|e] q]; simpl in *.
  - by rewrite IH.
  - done.
Qed.

Lemma listeners_touch_handlers els cfg ty :
  ty ≠ "touchend" →
  Forall (λ l, l_type l = ty →
               l_handler l ≠ TouchEndHandler
               ∧ l_handler l ≠ FallbackClickHandler)
    (listeners true els cfg).
Proof.
  intros Hty. unfold listeners.
  destruct (truthy (cancelOnMove cfg)); simpl.
  all: repeat (apply Forall_cons; split; [|]).
  all: try (by apply Forall_nil_2).
  all: simpl; intros Heq; try (by destruct Hty); by split.
Qed.

(** X10 — Two touch-path bindings on the same elements with the same
    selector share the marker classes, and the first one wins: its
    touch-end handler removes ['touch-started'] before the second one
    looks for it, so a touch-end does exactly what it does with the first
    binding alone, and no run ever invokes a callback through the second
    binding. *)
Theorem X10_second_touch_binding_never_fires els cfg1 cfg2 :
  selector cfg2 = selector cfg1 →
  let first := listeners true els cfg1 in
  let both := first ++ listeners true els cfg2 in
  (∀ ev this p,
     ev_type ev = "touchend" →
     step user_fn both (Deliver ev this) p
     = step user_fn first (Deliver ev this) p)
  ∧ (∀ inputs p,
       ∃ new, calls (run user_fn both inputs p) = calls p ++ new
            ∧ Forall (λ k : Call, ∃ el ev, k = call_of cfg1 el ev) new).
Proof.
  intros _ first both.
  assert (∀ ev this p,
            ev_type ev = "touchend" →
            deliver user_fn both ev this p = deliver user_fn first ev this p)
    as Hend.
  { intros ev this p Hty. subst both first.
    rewrite deliver_touchend_then, (deliver_touchend els cfg1) by done.
    destruct (has_class "touch-started" this p) eqn:Hs.
    - unfold fired.
      pose proof (fireCallback_frame cfg1 this ev (cleared this p))
        as (Hc & _).
      destruct (fireCallback user_fn cfg1 this ev (cleared this p))
        as [[v|e] q]; cbn [snd] in Hc; [|reflexivity].
      rewrite deliver_touchend by done.
      by rewrite (has_class_ext _ _ _ _ Hc), started_cleared.
    - by rewrite deliver_touchend, Hs. }
  split; [exact Hend|].
  intros inputs. induction inputs as [|i inputs IH]; intros p; cbn [run].
  { exists []. by rewrite app_nil_r. }
  assert (∃ new, calls (step user_fn both i p) = calls p ++ new
               ∧ Forall (λ k : Call, ∃ el ev, k = call_of cfg1 el ev) new)
    as (n1 & E1 & F1).
  { destruct i as [ev this|id|w]; cbn [step].
    - destruct (decide (ev_type ev = "touchend")) as [Hty|Hty].
      + rewrite Hend by done. subst first.
        rewrite deliver_touchend by done.
        destruct (has_class "touch-started" this p);
          [|exists []; by rewrite app_nil_r].
        rewrite fired_calls. simpl.
        destruct (is_callable (callback cfg1) && passes user_fn cfg1 this _);
          eexists; split; try reflexivity; [|done].
        apply Forall_singleton. by eauto.
      + exists []. rewrite app_nil_r. split; [|done].
        apply deliver_quiet_calls.
        subst both first. apply Forall_app.
        split; by apply listeners_touch_handlers.
    - exists []. rewrite app_nil_r. split; [apply fire_frame|done].
    - exists []. by rewrite app_nil_r. }
  destruct (IH (step user_fn both i p)) as (n2 & E2 & F2).
  exists (n1 ++ n2). rewrite E2, E1, app_assoc.
  split; [done|]. by apply Forall_app.
Qed.

Lemma callback_call_unfold cfg el ev p :
  is_callable (callback cfg) = true →
  callback_call user_fn cfg el ev p =
    (fst (apply_fn user_fn (callback cfg) (VElem el) [VEvent ev] p),
     log_call (call_of cfg el ev) p).
Proof.
  unfold callback_call, is_callable, call_of.
  destruct (callback cfg) as [ | | | | |f| | | | ]; try discriminate.
  intros _. by destruct f.
Qed.

(** X15 — On the fallback path bindings stack.  With two bindings on the
    same elements with the same selector, callable callbacks, both
    [onlyIf] passing and the first callback returning normally, one click
    invokes the first callback and then the second; if the first callback
    throws instead, the second is not invoked. *)
Theorem X15_fallback_bindings_fire_in_order els cfg1 cfg2 ev this p :
  selector cfg2 = selector cfg1 →
  ev_type ev = "click" →
  is_callable (callback cfg1) = true → is_callable (callback cfg2) = true →
  passes user_fn cfg1 this p = true → passes user_fn cfg2 this p = true →
  let both := listeners false els cfg1 ++ listeners false els cfg2 in
  let first_call :=
    fst (apply_fn user_fn (callback cfg1) (VElem this) [VEvent ev] p) in
  ((∃ v, first_call = Normal v) →
   calls (step user_fn both (Deliver ev this) p)
   = calls p ++ [call_of cfg1 this ev; call_of cfg2 this ev])
  ∧ ((∃ e, first_call = Throw e) →
     calls (step user_fn both (Deliver ev this) p)
     = calls p ++ [call_of cfg1 this ev]).
Proof.
  intros _ Hty Hc1 Hc2 Hp1 Hp2 both first_call. subst both first_call.
  cbn [step]. rewrite (listeners_fallback els cfg1), Hc1.
  cbn [deliver app on l_type l_handler l_env]. rewrite Hty.
  change (String.eqb "click" "click") with true. cbv iota.
  cbn [handle]. unfold js_bind.
  unfold passes, only_if in Hp1.
  pose proof (apply_fn_page (onlyIf cfg1) VWindow [VElem this] p) as Hpg.
  destruct (apply_fn user_fn (onlyIf cfg1) VWindow [VElem this] p)
    as [[v|e] q]; simpl in Hp1, Hpg; subst q; [|done].
  rewrite Hp1, callback_call_unfold by done.
  split.
  - intros [r ->]. cbn [js_ret].
    rewrite deliver_fallback_click by done.
    assert (only_if user_fn cfg2 this (log_call (call_of cfg1 this ev) p)
            = only_if user_fn cfg2 this p) as -> by (by apply only_if_ext).
    unfold passes in Hp2.
    destruct (only_if user_fn cfg2 this p) as [v2|?]; [|done].
    rewrite Hp2, invoked_calls by done. simpl. by rewrite <- app_assoc.
  - by intros [e ->].
Qed.

End Properties.

(** ** The model on concrete inputs *)

Example configure_examples :
  configure opts_delay = Normal cfg_delay
  ∧ configure opts_nomove = Normal cfg_nomove
  ∧ configure opts_gated = Normal cfg_gated
  ∧ configure opts_broken = Normal cfg_broken
  ∧ configure (VFun (UserFn 0)) = Normal (set_callback (VFun (UserFn 0)) defaults)
  ∧ configure VUndefined = Normal defaults
  ∧ configure VNull = Throw TypeError.
Proof. repeat split. Qed.

(** The scenario of the usage notes: [touchDelay: 150], touch-begin, then
    the release either before or after the timeout. *)
Example quick_release :
  let p' := run demo_fn (listeners true [7] cfg_delay)
              [Deliver (touchstart_at 7) 7; Deliver (touchend_at 7) 7;
               Timeout 0] (page0 true) in
  calls p' = [call_of cfg_delay 7 (touchend_at 7)]
  ∧ has_class "touched" 7 p' = false ∧ timers p' = [].
Proof. vm_compute. repeat split. Qed.

Example late_release :
  let reg := listeners true [7] cfg_delay in
  let held := run demo_fn reg [Deliver (touchstart_at 7) 7; Timeout 0]
                (page0 true) in
  has_class "touched" 7 held = true
  ∧ calls held = []
  ∧ calls (run demo_fn reg [Deliver (touchend_at 7) 7] held)
    = [call_of cfg_delay 7 (touchend_at 7)]
  ∧ idle 7 (run demo_fn reg [Deliver (touchend_at 7) 7] held).
Proof. vm_compute. repeat split. Qed.

(** [onlyIf] is asked again at the release: a gate that was open at
    touch-begin and is closed at touch-end keeps the callback from firing,
    and the classes are cleared all the same. *)
Example gate_rechecked_at_release :
  let p' := run demo_fn (listeners true [7] cfg_gated)
              [Deliver (touchstart_at 7) 7; Mutate false;
               Deliver (touchend_at 7) 7] (page0 true) in
  calls p' = [] ∧ idle 7 p'.
Proof. vm_compute. repeat split. Qed.

(** ** Witnesses and counterexamples *)

Lemma C1_witness :
  calls (step demo_fn (listeners true [7] cfg_gated)
           (Deliver (touchend_at 7) 7) touching)
  ≠ calls touching
  ↔ is_callable (callback cfg_gated) = true
    ∧ passes demo_fn cfg_gated 7 (firing_state true 7 touching) = true.
Proof.
  apply (C1_callback_fires_iff_callable_and_gate_open demo_fn true [7]
           cfg_gated (touchend_at 7) 7 touching).
  split; reflexivity.
Defined.

Lemma C2_witness :
  let p' := run demo_fn (listeners true [7] cfg_delay)
              (Deliver (touchstart_at 7) 7
               :: [Timeout 0] ++ Deliver (touchmove_at 7) 7
               :: [] ++ Deliver (touchend_at 7) 7 :: [Mutate false])
              (page0 true) in
  calls p' = [] ∧ has_class "touch-started" 7 p' = false
  ∧ has_class "touched" 7 p' = false.
Proof.
  apply (C2_move_cancels_the_tap demo_fn [7] cfg_delay
           (touchstart_at 7) (touchmove_at 7) (touchend_at 7) 7
           [Timeout 0] [] [Mutate false] (page0 true));
    try reflexivity; repeat constructor.
Defined.

Lemma C3_witness :
  let reg := listeners true [7] cfg_nomove in
  let held := run demo_fn reg
                (Deliver (touchstart_at 7) 7
                 :: [Timeout 0] ++ Deliver (touchmove_at 7) 7 :: [])
                (page0 true) in
  Forall (λ l, l_type l ≠ "touchmove") reg
  ∧ has_class "touch-started" 7 held = true
  ∧ calls (step demo_fn reg (Deliver (touchend_at 7) 7) held)
    = [] ++ [call_of cfg_nomove 7 (touchend_at 7)].
Proof.
  apply (C3_move_ignored_without_cancelOnMove demo_fn [7] cfg_nomove
           (touchstart_at 7) (touchmove_at 7) (touchend_at 7) 7
           [Timeout 0] [] (page0 true));
    try reflexivity; repeat constructor.
Defined.



Lemma C5_witness :
  flags_consistent
    (run demo_fn (listeners true [7] cfg_delay)
       [Deliver (touchstart_at 7) 7; Timeout 0] (page0 true)).
Proof.
  apply (C5_touched_only_over_touch_started demo_fn
           (listeners true [7] cfg_delay)
           [Deliver (touchstart_at 7) 7; Timeout 0] (page0 true)).
  intros el. split; reflexivity.
Defined.

(** C6 as worded puts no condition on the element at touch-begin.
    With a first finger down (gate open), a second touch-begin at which
    [onlyIf] answers false is followed by a touch-end that finds
    ['touch-started'] set and, the gate open again, fires. *)
Lemma C6_counterexample :
  let reg := listeners true [7] cfg_gated in
  let p := run demo_fn reg [Mutate false] touching in
  passes demo_fn cfg_gated 7 p = false
  ∧ has_class "touch-started" 7
      (run demo_fn reg [Deliver (touchstart_at 7) 7] p) = true
  ∧ calls (run demo_fn reg
             [Deliver (touchstart_at 7) 7; Mutate true;
              Deliver (touchend_at 7) 7] p)
    = [call_of cfg_gated 7 (touchend_at 7)].
Proof. vm_compute. repeat split. Qed.

Lemma C6_witness :
  Forall (λ q, idle 7 q ∧ calls q = [])
    (trajectory demo_fn (listeners true [7] cfg_gated)
       (Deliver (touchstart_at 7) 7
        :: [Mutate true; Deliver (touchmove_at 7) 7; Timeout 0;
            Deliver (touchend_at 7) 7])
       (page0 false)).
Proof.
  apply (C6_gate_closed_at_touch_begin demo_fn [7] cfg_gated
           (touchstart_at 7) 7
           [Mutate true; Deliver (touchmove_at 7) 7; Timeout 0;
            Deliver (touchend_at 7) 7] (page0 false)).
  - reflexivity.
  - reflexivity.
  - split; reflexivity.
  - repeat (apply Forall_cons; split); try apply Forall_nil; simpl; done.
Defined.

Lemma C7_witness :
  let reg := listeners true [7] cfg_broken in
  let begun_page := step demo_fn reg (Deliver (touchstart_at 7) 7) (page0 true) in
  let p' := run demo_fn reg
              [Deliver (touchstart_at 7) 7; Deliver (touchend_at 7) 7]
              (page0 true) in
  calls p' = [] ∧ uncaught p' = []
  ∧ (has_class "touch-started" 7 begun_page = true
     ∧ timers begun_page = [] ++ [mkTimer 0 7 (VNum 0)])
  ∧ (step demo_fn reg (Deliver (touchend_at 7) 7) begun_page
     = cleared 7 begun_page
     ∧ idle 7 (step demo_fn reg (Deliver (touchend_at 7) 7) begun_page))
  ∧ listeners false [7] cfg_broken = [].
Proof.
  pose proof (C7_uncallable_callback_never_fires demo_fn demo_selector_ok [7]
                cfg_broken eq_refl)
    as (Hcalls & Hbegin & _ & Hend & _ & _ & _ & Hnone & _ & _ & _ & Hquiet).
  split; [apply Hcalls|]. split.
  { apply (Hquiet true). intros el q. by eexists. }
  split; [apply Hbegin; reflexivity|].
  split; [apply Hend; reflexivity|apply Hnone].
Defined.

Lemma C8_witness :
  let reg := listeners false [7] cfg_gated in
  calls (step demo_fn reg (Deliver (click_at 7) 7) (page0 true))
  = [] ++ (if passes demo_fn cfg_gated 7 (page0 true)
           then [call_of cfg_gated 7 (click_at 7)] else [])
  ∧ classes (run demo_fn reg
               [Deliver (touchstart_at 7) 7; Deliver (click_at 7) 7;
                Timeout 0] (page0 true)) = ∅.
Proof.
  pose proof (C8_fallback_click_fires_once demo_fn [7] cfg_gated eq_refl)
    as (_ & Hclick & _ & Hrun).
  split.
  - apply (Hclick (click_at 7) 7 (page0 true)). reflexivity.
  - apply (Hrun _ (page0 true)). reflexivity.
Defined.

Lemma C9_witness :
  let p' := step demo_fn (listeners true [7] cfg_gated)
              (Deliver (click_at 7) 7) (page0 false) in
  4 ∈ prevented p'
  ∧ prevented p' = [] ++ [4]
  ∧ classes p' = ∅ ∧ timers p' = []
  ∧ calls p' = [] ∧ uncaught p' = [].
Proof.
  apply (C9_click_default_always_prevented demo_fn [7] cfg_gated
           (click_at 7) 7 (page0 false)).
  reflexivity.
Defined.

Lemma C10_witness :
  configure (VStr "tap") = Normal defaults
  ∧ ∀ ts els reg,
      tappable demo_selector_ok ts els (VStr "tap") reg
      = tappable demo_selector_ok ts els (VObj []) reg.
Proof.
  pose proof (C10_other_options_mean_defaults demo_fn demo_selector_ok
                (VStr "tap")) as H.
  destruct H as (Hcfg & _ & _ & Hsame & _); [discriminate|discriminate|].
  split; [exact Hcfg|exact Hsame].
Defined.

(** ** Witnesses of the further properties *)

Lemma X1_witness :
  tappable demo_selector_ok true [7]
    (VObj [("callback", VFun (UserFn 0)); ("selector", VStr "#")]) []
  = Throw (SelectorError (VStr "#"))
  ∧ tappable demo_selector_ok false [7]
      (VObj [("callback", VNum 5); ("selector", VStr "#")]) []
    = Normal ([7], []).
Proof.
  split.
  - destruct (X1_binding_time_errors demo_selector_ok true [7]
                (VObj [("callback", VFun (UserFn 0)); ("selector", VStr "#")])
                []) as [_ Hrec].
    destruct Hrec as (cfg & Hcfg & ->); [discriminate|].
    injection Hcfg as <-. reflexivity.
  - destruct (X1_binding_time_errors demo_selector_ok false [7]
                (VObj [("callback", VNum 5); ("selector", VStr "#")])
                []) as [_ Hrec].
    destruct Hrec as (cfg & Hcfg & ->); [discriminate|].
    injection Hcfg as <-. reflexivity.
Defined.

Lemma X2_witness :
  configure (VObj [("callback", VFun (UserFn 0))]) = configure (VFun (UserFn 0))
  ∧ tappable demo_selector_ok true [7] (VObj [("callback", VFun (UserFn 0))]) []
    = tappable demo_selector_ok true [7] (VFun (UserFn 0)) [].
Proof.
  apply (X2_function_is_callback_record demo_selector_ok (UserFn 0)
           [("callback", VFun (UserFn 0))] true [7] []); reflexivity.
Defined.

Lemma X3_witness :
  (∃ l, l ∈ listeners true [7] cfg_nomove ∧ l_type l = "touchmove")
  ↔ (lookup_prop "cancelOnMove"
       [("callback", VFun (UserFn 0)); ("cancelOnMove", VBool false)]
     = VUndefined
     ∨ truthy (lookup_prop "cancelOnMove"
                 [("callback", VFun (UserFn 0)); ("cancelOnMove", VBool false)])
       = true).
Proof.
  apply (X3_touchmove_listener_iff_cancelOnMove
           [("callback", VFun (UserFn 0)); ("cancelOnMove", VBool false)]
           [7] cfg_nomove).
  reflexivity.
Defined.

Lemma X4_witness :
  has_class "enabled" 7
    (run demo_fn (listeners true [7] cfg_delay)
       [Deliver (touchstart_at 7) 7; Timeout 0; Deliver (touchend_at 7) 7]
       (with_class 7 "enabled" (page0 true)))
  = has_class "enabled" 7 (with_class 7 "enabled" (page0 true)).
Proof.
  apply (X4_only_marker_classes_are_written demo_fn
           (listeners true [7] cfg_delay)
           [Deliver (touchstart_at 7) 7; Timeout 0; Deliver (touchend_at 7) 7]
           (with_class 7 "enabled" (page0 true)) "enabled" 7).
  reflexivity.
Defined.

Lemma X7_witness :
  has_class "touched" 7
    (run demo_fn (listeners true [7] cfg_nomove)
       [Deliver (touchstart_at 7) 7; Mutate false; Deliver (touchmove_at 7) 7]
       (page0 true)) = false.
Proof.
  apply (X7_touched_is_never_applied_synchronously demo_fn
           (listeners true [7] cfg_nomove)
           [Deliver (touchstart_at 7) 7; Mutate false;
            Deliver (touchmove_at 7) 7] (page0 true) 7).
  - repeat constructor.
  - reflexivity.
Defined.

Lemma X8_witness :
  ∃ new,
    timers (run demo_fn (listeners true [7] cfg_delay)
              [Deliver (touchstart_at 7) 7; Deliver (touchstart_at 7) 7]
              (page0 true)) = [] ++ new
    ∧ length new = 2
    ∧ Forall (λ t, t_elem t = 7 ∧ t_delay t = VNum 150) new.
Proof.
  apply (X8_timeouts_are_never_cancelled_or_merged demo_fn [7] cfg_delay 7
           [Deliver (touchstart_at 7) 7; Deliver (touchstart_at 7) 7]
           (page0 true)).
  - intros q. reflexivity.
  - repeat constructor; by eexists.
Defined.

Lemma X9_witness :
  step demo_fn (listeners true [7] cfg_noguard)
    (Deliver (touchstart_at 7) 7) (page0 true)
  = report TypeError (page0 true)
  ∧ calls (run demo_fn (listeners true [7] cfg_noguard)
             [Deliver (touchstart_at 7) 7; Deliver (touchend_at 7) 7]
             (page0 true)) = [].
Proof.
  pose proof (X9_uncallable_onlyIf_disables_the_binding demo_fn [7]
                cfg_noguard eq_refl) as (Hbegin & _ & Hrun).
  split.
  - apply Hbegin. reflexivity.
  - apply (Hrun true _ (page0 true)). intros el. reflexivity.
Defined.

Lemma X10_witness :
  step demo_fn (listeners true [7] cfg_delay ++ listeners true [7] cfg_second)
    (Deliver (touchend_at 7) 7) touching
  = step demo_fn (listeners true [7] cfg_delay)
      (Deliver (touchend_at 7) 7) touching.
Proof.
  pose proof (X10_second_touch_binding_never_fires demo_fn [7] cfg_delay
                cfg_second eq_refl) as (Hend & _).
  apply Hend. reflexivity.
Defined.

Lemma X12_witness :
  let reg := listeners true [7] cfg_delay in
  let again :=
    run demo_fn reg
      [Deliver (touchstart_at 7) 7; Deliver (touchend_at 7) 7;
       Deliver (touchstart_at 7) 7] (page0 true) in
  has_class "touched" 7 (step demo_fn reg (Timeout 0) again) = true
  ∧ pending 1 7 (step demo_fn reg (Timeout 0) again).
Proof.
  apply (X12_stale_timeout_marks_the_next_touch demo_fn [7] cfg_delay 7
           (touchstart_at 7) (touchend_at 7) (touchstart_at 7) (page0 true));
    try reflexivity.
  apply Forall_nil_2.
Defined.

Lemma X13_witness :
  step demo_fn (listeners true [7] cfg_throwing)
    (Deliver (touchend_at 7) 7) touching
  = report (UserExn VUndefined) (cleared 7 touching).
Proof.
  pose proof (X13_release_clears_classes_before_it_can_throw demo_fn [7]
                cfg_throwing (touchend_at 7) 7 touching (UserExn VUndefined)
                eq_refl eq_refl eq_refl) as (Hthrow & _).
  apply Hthrow. reflexivity.
Defined.

Lemma X14_witness :
  calls (run demo_fn (listeners true [7] cfg_gated)
           [Deliver (touchcancel_at 7) 7; Timeout 0] touching)
  = calls touching
  ∧ ∀ el, has_class "touch-started" el
            (run demo_fn (listeners true [7] cfg_gated)
               [Deliver (touchcancel_at 7) 7; Timeout 0] touching)
          = has_class "touch-started" el touching.
Proof.
  apply (X14_unheard_events_leave_the_touch_open demo_fn [7] cfg_gated
           [Deliver (touchcancel_at 7) 7; Timeout 0] touching).
  repeat (apply Forall_cons; split); try (by apply Forall_nil_2); [|done].
  simpl. unfold touch_types. intros Hin.
  repeat (apply elem_of_cons in Hin as [Hin|Hin]; [discriminate|]).
  by apply elem_of_nil in Hin.
Defined.

Lemma X15_witness :
  calls (step demo_fn
           (listeners false [7] cfg_delay ++ listeners false [7] cfg_second)
           (Deliver (click_at 7) 7) (page0 true))
  = [] ++ [call_of cfg_delay 7 (click_at 7); call_of cfg_second 7 (click_at 7)].
Proof.
  pose proof (X15_fallback_bindings_fire_in_order demo_fn [7] cfg_delay
                cfg_second (click_at 7) 7 (page0 true)
                eq_refl eq_refl eq_refl eq_refl eq_refl eq_refl)
    as (Hboth & _).
  apply Hboth. by eexists.
Defined.
